(** * rSqoop: schema translation, extraction, bulk load and count reconciliation

    A shallow embedding of [rsqoop_runner/module.py] (class [rSqoop]) and the
    properties of its type translation, row normalisation, load-statement
    generation, count check and pipeline ordering.

    Conventions of the embedding:
    - a Python [str] is a [string] (a sequence of 8-bit characters);
    - a Python [int] is a [Z]; a Python [float] is an IEEE-754 binary64 value,
      a [spec_float] with precision 53 and maximal exponent 1024;
    - a call that may raise returns a [result]; code that talks to the source
      database, the warehouse, the object store or the local staging file runs
      in the monad [M], which records every such call in a trace and asks an
      oracle ([world]) for its outcome;
    - the rows of the catalog are typed records ([field]); the rows of the
      extraction are lists of [value]s and are handed over at once (the
      driver streams them in blocks);
    - the attributes of the [rSqoop] object are a record ([session]), with
      [datetime] and [strftime] left abstract;
    - log lines ([LOG.l]) are not part of the model. *)

From Stdlib Require Import ZArith String Ascii List Bool Lia.
From Stdlib Require Import Floats.SpecFloat.
From stdpp Require Import base decidable strings list pretty gmap.

Open Scope string_scope.
Open Scope Z_scope.

(** ** Python preliminaries *)

(** Exceptions the modelled code can raise or let through. *)
Inductive exn : Type :=
  | Exception_incremental_requires_keys
      (* Exception("incremental loads require key fields") *)
  | Exception_failed_count_check (diff : Z) (pct_diff : spec_float)
      (* Exception(f"failed count check, difference: ..., percent: ...") *)
  | TypeError
  | ValueError
  | IndexError
  | KeyError (key : string)
  | OverflowError
  | ZeroDivisionError
  | RemoteError (tag : string).
      (* anything raised by a collaborator: driver, object store, file *)

Inductive result (A : Type) : Type :=
  | Ok (a : A)
  | Raise (e : exn).
Arguments Ok {A} a.
Arguments Raise {A} e.

Definition rbind {A B} (r : result A) (k : A -> result B) : result B :=
  match r with
  | Ok a => k a
  | Raise e => Raise e
  end.

Declare Scope result_scope.
Delimit Scope result_scope with result.
Notation "x <-r c1 ;; c2" := (rbind c1 (fun x => c2))
  (at level 100, c1 at next level, right associativity) : result_scope.

Definition is_ok {A} (r : result A) : bool :=
  match r with Ok _ => true | Raise _ => false end.

(** [str(n)] for an [int]. *)
Definition str_int (n : Z) : string := pretty n.

(** [str(x)] / ['%s' % x] for a value that is an [int] or [None]. *)
Definition str_opt_int (x : option Z) : string :=
  match x with
  | Some n => str_int n
  | None => "None"
  end.

(** [int(x)] for a value that is an [int] or [None]: [int(None)] raises
    [TypeError]. *)
Definition py_int (x : option Z) : result Z :=
  match x with
  | Some n => Ok n
  | None => Raise TypeError
  end.

(** [c.lower()] on the ASCII range. *)
Definition lower_ascii (c : ascii) : ascii :=
  let n := nat_of_ascii c in
  if (andb (Nat.leb 65 n) (Nat.leb n 90)) then ascii_of_nat (n + 32) else c.

Fixpoint lower (s : string) : string :=
  match s with
  | EmptyString => EmptyString
  | String c s' => String (lower_ascii c) (lower s')
  end.

(** [s.replace(old, new)] where [old] and [new] are one character long. *)
Fixpoint replace (old new : ascii) (s : string) : string :=
  match s with
  | EmptyString => EmptyString
  | String c s' =>
      String (if Ascii.eqb c old then new else c) (replace old new s')
  end.

(** [sep.join(l)]. *)
Definition join (sep : string) (l : list string) : string :=
  String.concat sep l.

(** [x in t] for a tuple of strings. *)
Definition py_in (x : string) (t : list string) : bool :=
  bool_decide (x ∈ t).

(** ** Column descriptors

    One row of the catalog query of [get_source_table_schema]:
    [(column_name, data_type, character_maximum_length, numeric_precision,
    numeric_scale)]; the last three are nullable integers. *)
Record field : Type := Field {
  field0 : string;        (* column_name *)
  field1 : string;        (* data_type *)
  field2 : option Z;      (* character_maximum_length *)
  field3 : option Z;      (* numeric_precision *)
  field4 : option Z       (* numeric_scale *)
}.

(** ** Type translation: the body of the loop of [clone_staging_table] *)

Definition rs_date_types : list string :=
  ["timestamp with time zone"; "time without time zone";
   "datetime"; "smalldatetime"; "date"; "datetime2"].
Definition rs_char_types : list string :=
  ["timestamp"; "char"; "varchar"; "character"; "nchar"; "bpchar";
   "character varying"; "nvarchar"; "text"].
Definition rs_num_types : list string := ["decimal"; "numeric"].
Definition rs_smallint_types : list string := ["bit"; "tinyint"; "smallint"; "int2"].
Definition rs_int_types : list string := ["int"; "integer"; "int4"].
Definition rs_bigint_types : list string := ["bigint"; "int8"].
Definition rs_other_types : list string :=
  ["real"; "double precision"; "boolean"; "float4"; "float8";
   "float"; "date"; "bool"; "timestamp without time zone"].
Definition rs_reserved_names : list string := ["partition"].

(** Lines 207-210: reserved column names get the prefix [v_]. *)
Definition column_name (f : field) : string :=
  if negb (py_in (lower (field0 f)) rs_reserved_names)
  then field0 f
  else "v_" +:+ field0 f.

(** Lines 219-222. *)
Definition field_type (f : field) : string :=
  if String.eqb (field1 f) "text" || String.eqb (field1 f) "timestamp"
  then "varchar"
  else field1 f.

(** Lines 224-231: the width of a character column.  The two comparisons
    evaluate [int(field[2])], which raises on [None]; the last branch takes
    [field[2]] itself. *)
Definition size (f : field) : result (option Z) :=
  if String.eqb (field1 f) "timestamp" then Ok (Some 8)
  else
    (n <-r py_int (field2 f) ;;
     if n >? 65535 then Ok (Some 65535)
     else
       (n' <-r py_int (field2 f) ;;
        if n' <? 0 then Ok (Some 2000)
        else Ok (field2 f)))%result.

(** Lines 213-252: the target type clause of one column. *)
Definition data_type (f : field) : result string :=
  if py_in (field1 f) rs_date_types then Ok "timestamp"
  else if String.eqb (field1 f) "uuid" then Ok "varchar(50)"
  else if py_in (field1 f) rs_char_types then
    (sz <-r size f ;;
     Ok (if String.eqb (field1 f) "timestamp" || bool_decide (field2 f <> None)
         then field_type f +:+ " (" +:+ str_opt_int sz +:+ ")"
         else "varchar(2000)"))%result
  else if py_in (field1 f) rs_smallint_types then Ok "smallint"
  else if py_in (field1 f) rs_int_types then Ok "integer"
  else if py_in (field1 f) rs_bigint_types then Ok "bigint"
  else if py_in (field1 f) rs_num_types then
    Ok (if bool_decide (field3 f <> None)
        then field1 f +:+ " (" +:+ str_opt_int (field3 f) +:+ ","
               +:+ str_opt_int (field4 f) +:+ ")"
        else field1 f)
  else if py_in (field1 f) rs_other_types then Ok (field1 f)
  else if String.eqb (field1 f) "uniqueidentifier" then Ok "varchar(36)"
  else Ok "varchar(2000)".

(** The one-character strings of a double quote and of a newline. *)
Definition dquote : string := String (ascii_of_nat 34) EmptyString.
Definition nl : string := String (ascii_of_nat 10) EmptyString.

(** Line 254: one row of the [create table] statement. *)
Definition create_row (f : field) : result string :=
  (dt <-r data_type f ;;
   Ok (dquote +:+ column_name f +:+ dquote +:+ " " +:+ dt +:+ "," +:+ nl))%result.


(** ** Field selection: [get_field_values], [get_fields], [get_select_fields] *)

(** An entry of [select_fields]: a field name, or a pair of a source field
    name and the name that overrides it. *)
Inductive select_field : Type :=
  | SelStr (s : string)
  | SelTuple (src_name override : string).

(** [str(i[0]).lower()]: the first character of a string entry (an empty
    string has none), the first component of a pair. *)
Definition sel_head (i : select_field) : result string :=
  match i with
  | SelStr EmptyString => Raise IndexError
  | SelStr (String c _) => Ok (lower (String c EmptyString))
  | SelTuple a _ => Ok (lower a)
  end.

(** The condition of the comprehension of [get_field_values]:
    [i == key_to_find or str(i[0]).lower() == str(key_to_find).lower()]. *)
Definition sel_matches (i : select_field) (key_to_find : string) : result bool :=
  match i with
  | SelStr s =>
      if String.eqb s key_to_find then Ok true
      else (h <-r sel_head i ;; Ok (String.eqb h (lower key_to_find)))%result
  | SelTuple _ _ =>
      (h <-r sel_head i ;; Ok (String.eqb h (lower key_to_find)))%result
  end.

Fixpoint get_field_values (iterables : list select_field) (key_to_find : string)
  : result (list select_field) :=
  match iterables with
  | [] => Ok []
  | i :: rest =>
      (b <-r sel_matches i key_to_find ;;
       r <-r get_field_values rest key_to_find ;;
       Ok (if b then i :: r else r))%result
  end.

(** The truth value of a list that may be [None]. *)
Definition truthy {A} (l : option (list A)) : bool :=
  match l with
  | Some (_ :: _) => true
  | _ => false
  end.

Definition items {A} (l : option (list A)) : list A :=
  match l with
  | Some l => l
  | None => []
  end.

Fixpoint get_fields_loop (select_fields : list select_field) (schema : list field)
  : result (list field) :=
  match schema with
  | [] => Ok []
  | f :: rest =>
      (selected_field <-r get_field_values select_fields (lower (field0 f)) ;;
       match selected_field with
       | [] => get_fields_loop select_fields rest
       | SelTuple _ override :: _ =>
           r <-r get_fields_loop select_fields rest ;;
           Ok (Field override (field1 f) (field2 f) (field3 f) (field4 f) :: r)
       | SelStr s :: _ =>
           r <-r get_fields_loop select_fields rest ;;
           Ok (Field s (field1 f) (field2 f) (field3 f) (field4 f) :: r)
       end)%result
  end.

Definition get_fields (select_fields : option (list select_field)) (schema : list field)
  : result (list field) :=
  if truthy select_fields
  then get_fields_loop (items select_fields) schema
  else Ok (map (fun f => Field (field0 f) (field1 f) (field2 f) (field3 f) (field4 f)) schema).

Fixpoint get_select_fields_loop (schema : list field) (select_fields : list select_field)
  : result (list string) :=
  match schema with
  | [] => Ok []
  | f :: rest =>
      (selected_field <-r get_field_values select_fields (lower (field0 f)) ;;
       r <-r get_select_fields_loop rest select_fields ;;
       Ok (match selected_field with
           | [] => r
           | _ :: _ => field0 f :: r
           end))%result
  end.

Definition get_select_fields (schema : list field) (select_fields : list select_field)
  : result string :=
  (field_names <-r get_select_fields_loop schema select_fields ;;
   Ok (join "," field_names))%result.

(** ** The catalog query of [get_source_table_schema] *)

(** [s.split(c)] for a one-character separator. *)
Fixpoint split (c : ascii) (s : string) : list string :=
  match s with
  | EmptyString => [EmptyString]
  | String a s' =>
      if Ascii.eqb a c then EmptyString :: split c s'
      else match split c s' with
           | [] => [String a EmptyString]
           | w :: ws => String a w :: ws
           end
  end.

(** [c in s] for a one-character [c]. *)
Fixpoint has_char (c : ascii) (s : string) : bool :=
  match s with
  | EmptyString => false
  | String a s' => Ascii.eqb a c || has_char c s'
  end.

(** [s[1 : len(s) - 1]]. *)
Definition strip_ends (s : string) : string :=
  String.substring 1 (String.length s - 2) s.

(** Lines 128-136: the schema and table name of the catalog query. *)
Definition schema_and_table (src_table : string) : result (string * string) :=
  (st <-r (if has_char "." src_table
           then match split "." src_table with
                | [a; b] => Ok (a, b)
                | _ => Raise ValueError
                end
           else Ok ("public", src_table)) ;;
   let '(schema_name, table_name) := st in
   Ok (schema_name,
       if has_char "[" table_name then strip_ends table_name else table_name))%result.

Definition schema_sql (table_name schema_name : string) : string :=
  "
            select
              column_name,
              data_type,
              character_maximum_length,
              numeric_precision,
              numeric_scale
            from information_schema.columns
            where table_name=lower('" +:+ table_name +:+ "') and table_schema=lower('" +:+ schema_name +:+ "')
            order by ordinal_position ".

(** ** Collaborators, traces and the monad of the pipeline *)

(** A value of a source row, as the driver hands it over.  [VOther] stands
    for every type that is not [None], [bool], [int] or [str] (float,
    Decimal, datetime, bytes, UUID, ...) and carries the text [str] gives for
    it. *)
Inductive value : Type :=
  | VNone
  | VBool (b : bool)
  | VInt (n : Z)
  | VStr (s : string)
  | VOther (text : string).

(** A cell handed to [csv.writer.writerow]. *)
Inductive cell : Type :=
  | CInt (n : Z)
  | CStr (s : string).

(** One call to a collaborator: the source database [self.sql], the
    warehouse [self.pg_conn], the object store [self.s3_conn], or the local
    staging file. *)
Inductive call : Type :=
  | sql_fetch_sql_all (sql : string)
  | sql_fetch_sql (sql : string) (blocksize : option Z)
  | pg_table_exists (tgt_table : string)
  | pg_exec_sql (sql : string)
  | pg_batchCommit
  | pg_conn
  | pg_batchOpen
  | pg_fetch_sql (sql : string)
  | pg_fetch_sql_all (sql : string)
  | s3_put_file_to_s3 (bucket key local_filename : string)
  | file_open (name : string) (gzip : bool)
  | file_writerow (name delimiter : string) (row : list cell)
  | file_flush (name : string)
  | file_close (name : string)
  | sleep (seconds : Z)
  | os_path_exists (name : string)
  | os_remove (name : string).

Definition trace : Type := list call.

(** What the collaborators answer.  Every answer may depend on the calls
    made so far.  A call whose answer the code does not look at is answered
    by [w_raises]: [None] when it returns, [Some e] when it raises [e]. *)
Record world : Type := World {
  (* [self.sql.fetch_sql_all(schema_sql)]: the catalog rows *)
  w_columns : trace -> string -> result (list field);
  (* [self.sql.fetch_sql_all(...)[0][0]]: the source count *)
  w_src_cnt : trace -> string -> result Z;
  (* [self.sql.fetch_sql(sql=ce_sql, blocksize=20000)]: the rows iterated *)
  w_rows : trace -> string -> result (list (list value));
  (* [self.pg_conn.table_exists(tgt_table)[0] is True] *)
  w_tgt_exists : trace -> string -> result bool;
  (* [self.pg_conn.fetch_sql_all(...)[0][0]]: the target count *)
  w_tgt_cnt : trace -> string -> result Z;
  (* [os.path.exists(name)] *)
  w_path_exists : trace -> string -> bool;
  w_raises : trace -> call -> option exn
}.

Definition M (A : Type) : Type := world -> trace -> trace * result A.

Definition ret {A} (a : A) : M A := fun _ t => (t, Ok a).
Definition raise {A} (e : exn) : M A := fun _ t => (t, Raise e).
Definition bind {A B} (m : M A) (k : A -> M B) : M B :=
  fun w t =>
    match m w t with
    | (t', Ok a) => k a w t'
    | (t', Raise e) => (t', Raise e)
    end.
Definition lift {A} (r : result A) : M A := fun _ t => (t, r).

(** [try: m except Exception as e: h e]. *)
Definition try_except {A} (m : M A) (h : exn -> M A) : M A :=
  fun w t =>
    match m w t with
    | (t', Ok a) => (t', Ok a)
    | (t', Raise e) => h e w t'
    end.

(** A call with an answer: it is recorded, then answered from the calls
    before it. *)
Definition ask {A} (c : call) (answer : world -> trace -> result A) : M A :=
  fun w t => ((t ++ [c])%list, answer w t).

(** A call whose answer is not looked at. *)
Definition do (c : call) : M unit :=
  ask c (fun w t => match w_raises w t c with
                    | None => Ok tt
                    | Some e => Raise e
                    end).

Declare Scope M_scope.
Delimit Scope M_scope with M.
Notation "x <- c1 ;; c2" := (bind c1 (fun x => c2))
  (at level 100, c1 at next level, right associativity) : M_scope.
Notation "c1 ;; c2" := (bind c1 (fun _ => c2))
  (at level 100, right associativity) : M_scope.

(** Lines 123-149. *)
Definition get_source_table_schema (src_table : string) : M (list field) :=
  (st <- lift (schema_and_table src_table) ;;
   let q := schema_sql (snd st) (fst st) in
   ask (sql_fetch_sql_all q) (fun w t => w_columns w t q))%M.

(** ** [clone_staging_table] *)

Fixpoint create_rows (schema : list field) : result string :=
  match schema with
  | [] => Ok EmptyString
  | f :: rest =>
      (row <-r create_row f ;;
       rows <-r create_rows rest ;;
       Ok (row +:+ rows))%result
  end.

(** Lines 257-260: the four lineage columns that close the statement. *)
Definition meta_columns : string := "etl_source_system_cd varchar(50),
etl_row_create_dts timestamp,
etl_row_update_dts timestamp,
etl_run_id bigint );
".

(** Lines 165-278.  The pair returned is [(src_table, tgt_table)], or
    [(None, None)] when the schema is empty. *)
Definition clone_staging_table (src_table tgt_table : string)
    (select_fields : option (list select_field)) (incremental : bool)
  : M (option string * option string) :=
  (src_schema <- get_source_table_schema src_table ;;
   schema <- lift (get_fields select_fields src_schema) ;;
   tgt_exists <- ask (pg_table_exists tgt_table)
                     (fun w t => w_tgt_exists w t tgt_table) ;;
   if (length schema =? 0)%nat then ret (None, None)
   else if incremental && tgt_exists then ret (Some src_table, Some tgt_table)
   else
     let drop_sql := "drop table if exists " +:+ tgt_table +:+ ";" +:+ nl in
     rows <- lift (create_rows schema) ;;
     let create_sql :=
       "create table " +:+ tgt_table +:+ " (" +:+ nl +:+ rows +:+ meta_columns in
     let query := drop_sql +:+ create_sql in
     try_except
       (do (pg_exec_sql query) ;; do pg_batchCommit)
       (fun _ => do pg_batchCommit) ;;
     ret (Some src_table, Some tgt_table))%M.

(** ** Floats and the count check *)

(** Python's [float]: IEEE-754 binary64. *)
Definition float : Type := spec_float.
Definition prec : Z := 53.
Definition emax : Z := 1024.

(** [float(n)] for an [int]: the nearest double, ties to even;
    [OverflowError] when that is not finite. *)
Definition float_of_int (n : Z) : result float :=
  match binary_normalize prec emax n 0 false with
  | S754_infinity _ => Raise OverflowError
  | f => Ok f
  end.

(** [x / y] on floats. *)
Definition truediv (x y : float) : result float :=
  match y with
  | S754_zero _ => Raise ZeroDivisionError
  | _ => Ok (SFdiv prec emax x y)
  end.

(** [x > y] on floats. *)
Definition float_gt (x y : float) : bool := SFltb y x.

(** The default [pct_threshold=0.01]: the double nearest to 1/100,
    5764607523034235 * 2^-59. *)
Definition pct_threshold_default : float := S754_finite false 5764607523034235 (-59).

(** Lines 523-533 of [check_tgt_count]: everything after the target count
    is fetched.  [float(diff) / n] converts the [int] divisor [n] to a float
    first. *)
Definition count_check (src_cnt tgt_cnt : Z) (pct_threshold : float)
  : result (Z * float) :=
  let diff := src_cnt - tgt_cnt in
  (fdiff <-r float_of_int diff ;;
   fden <-r float_of_int (if negb (src_cnt =? 0) then src_cnt else 1) ;;
   pct_diff <-r truediv fdiff fden ;;
   if float_gt pct_diff pct_threshold
   then Raise (Exception_failed_count_check diff pct_diff)
   else Ok (diff, pct_diff))%result.

(** Lines 497-507. *)
Definition get_src_count (src_table : string) : M Z :=
  let q := "select count(1) from " +:+ src_table in
  ask (sql_fetch_sql_all q) (fun w t => w_src_cnt w t q).

(** Lines 509-533. *)
Definition check_tgt_count (src_cnt : Z) (tgt_table : string) (pct_threshold : float)
  : M (Z * float) :=
  (let q := "select count(1) from " +:+ tgt_table in
   tgt_cnt <- ask (pg_fetch_sql_all q) (fun w t => w_tgt_cnt w t q) ;;
   lift (count_check src_cnt tgt_cnt pct_threshold))%M.

(** Lines 568-580. *)
Definition grant_std_access (entity : string) : M unit :=
  (let grant := "
            grant all on " +:+ entity +:+ " to etl_user;
            grant all on " +:+ entity +:+ " to group ro_users;
            grant all on "
                  +:+ entity +:+ " to group power_users;
" in
   do (pg_exec_sql grant) ;;
   do pg_batchCommit)%M.

(** ** Row normalisation (lines 341-346 of [source_to_s3]) *)

(** [str(s)]. *)
Definition py_str (s : value) : string :=
  match s with
  | VNone => "None"
  | VBool true => "True"
  | VBool false => "False"
  | VInt n => str_int n
  | VStr s => s
  | VOther text => text
  end.

Definition LF : ascii := ascii_of_nat 10.   (* '\n' *)
Definition TAB : ascii := ascii_of_nat 9.   (* '\t' *)
Definition CR : ascii := ascii_of_nat 13.   (* '\r' *)
Definition VT : ascii := ascii_of_nat 11.   (* '\v' *)
Definition SPACE : ascii := ascii_of_nat 32.

(** The body of the inner loop: [int(s)] for a [bool], the cleaned text for
    anything else. *)
Definition normalize (s : value) : cell :=
  match s with
  | VBool b => CInt (if b then 1 else 0)
  | _ =>
      CStr (replace VT SPACE (replace CR SPACE (replace TAB SPACE
             (replace LF SPACE (py_str s)))))
  end.

Definition row_data (row : list value) : list cell := map normalize row.

(** ** Substitution into a template: [template % subs]

    The templates of [s3_to_redshift] only use [%(name)s]; the model also
    reads [%%] and raises [ValueError] on any other conversion.  The key is
    looked up when its closing parenthesis is read, so a missing key raises
    [KeyError] there. *)
Definition str_cell (c : cell) : string :=
  match c with
  | CInt n => str_int n
  | CStr s => s
  end.

Inductive fmt_state : Type :=
  | FText
  | FPercent
  | FName (name : string)
  | FConv (v : cell).

Fixpoint format (template : string) (st : fmt_state) (get : string -> option cell)
  : result string :=
  match template with
  | EmptyString =>
      match st with
      | FText => Ok EmptyString
      | _ => Raise ValueError
      end
  | String c rest =>
      match st with
      | FText =>
          if Ascii.eqb c "%" then format rest FPercent get
          else (r <-r format rest FText get ;; Ok (String c r))%result
      | FPercent =>
          if Ascii.eqb c "(" then format rest (FName EmptyString) get
          else if Ascii.eqb c "%"
          then (r <-r format rest FText get ;; Ok (String c r))%result
          else Raise ValueError
      | FName name =>
          if Ascii.eqb c ")" then
            match get name with
            | Some v => format rest (FConv v) get
            | None => Raise (KeyError name)
            end
          else format rest (FName (name +:+ String c EmptyString)) get
      | FConv v =>
          if Ascii.eqb c "s"
          then (r <-r format rest FText get ;; Ok (str_cell v +:+ r))%result
          else Raise ValueError
      end
  end.

(** [template % subs] for a dictionary [subs]. *)
Definition py_format (template : string) (subs : gmap string cell) : result string :=
  format template FText (fun name => subs !! name).

(** ** The session, extraction, load and the pipeline *)

Section Pipeline.

(** [datetime] values and [d.strftime(fmt)] are left to the platform. *)
Variable datetime : Type.
Variable strftime : datetime -> string -> string.

(** The attributes of the [rSqoop] object that the modelled methods read
    once [init] has run. *)
Record session : Type := Session {
  from_date : option datetime;
  etl_date : datetime;
  etl_run_id : Z;                 (* meta_fields['etl_run_id'] *)
  conf_temp_bucket : string;      (* conf['general']['temp_bucket'] *)
  s3_env : string;
  aws_access_key : string;
  aws_secret_key : string
}.

Variable self : session.

(** Lines 310-314. *)
Definition filter_str (date_fields : option (list string)) : string :=
  match from_date self with
  | Some d =>
      if truthy date_fields then
        let date_str :=
          map (fun date => date +:+ " > '" +:+ strftime d "%Y-%m-%d %H:%M" +:+ "'")
              (items date_fields) in
        "where " +:+ join " or " date_str
      else EmptyString
  | None => EmptyString
  end.

(** Lines 331-336: the four lineage values, in the order of the keys of
    [meta_fields]. *)
Definition meta_values (source_system_cd : option string) : list cell :=
  let etl_row_create_dts := strftime (etl_date self) "%Y-%m-%d %H:%M:%S" in
  let etl_row_update_dts := etl_row_create_dts in
  [CStr (match source_system_cd with Some s => s | None => EmptyString end);
   CStr etl_row_create_dts;
   CStr etl_row_update_dts;
   CInt (etl_run_id self)].

Fixpoint write_rows (name delimiter : string) (rows : list (list value))
    (meta : list cell) : M unit :=
  match rows with
  | [] => ret tt
  | row :: rest =>
      (do (file_writerow name delimiter (row_data row ++ meta)) ;;
       write_rows name delimiter rest meta)%M
  end.

(** Lines 280-368. *)
Definition source_to_s3 (src_table tgt_table : string)
    (s3_bucket s3_key : option string)
    (select_fields : option (list select_field))
    (date_fields : option (list string))
    (delimiter : string) (gzip : bool) (source_system_cd : option string)
  : M string :=
  (let tgt_key := replace "." "-" tgt_table in
   let s3_bucket :=
     match s3_bucket with Some b => b | None => conf_temp_bucket self end in
   let s3_key :=
     match s3_key with
     | Some k => k
     | None => "rsqoop/" +:+ s3_env self +:+ "/" +:+ tgt_key
     end in
   let s3_path := "s3://" +:+ s3_bucket +:+ "/" +:+ s3_key in
   let filter_str := filter_str date_fields in
   select_str <-
     (if truthy select_fields then
        src_schema <- get_source_table_schema src_table ;;
        lift (get_select_fields src_schema (items select_fields))
      else ret "*") ;;
   let ce_sql := "select " +:+ select_str +:+ " from " +:+ src_table
                   +:+ " with (nolock) " +:+ filter_str in
   result <- ask (sql_fetch_sql ce_sql (Some 20000))
                 (fun w t => w_rows w t ce_sql) ;;
   let temp_file := "temp/" +:+ tgt_key +:+ ".txt" in
   do (file_open temp_file gzip) ;;
   write_rows temp_file delimiter result (meta_values source_system_cd) ;;
   do (file_flush temp_file) ;;
   do (file_close temp_file) ;;
   do (sleep 10) ;;
   do pg_conn ;;
   do pg_batchOpen ;;
   do (pg_fetch_sql "select 1") ;;
   do (sql_fetch_sql "select 1" None) ;;
   do (s3_put_file_to_s3 s3_bucket (s3_key +:+ "/output.tsv") temp_file) ;;
   let s3_full_path := s3_path +:+ "/" +:+ "output.tsv" in
   exists_ <- ask (os_path_exists temp_file)
                  (fun w t => Ok (w_path_exists w t temp_file)) ;;
   (if exists_ : bool then do (os_remove temp_file) else ret tt) ;;
   ret s3_full_path)%M.

(** Lines 401-409. *)
Definition opt_str (gzip manifest remove_quotes : bool) : string :=
  let options :=
    ((if gzip then ["GZIP"] else [])
     ++ (if manifest then ["MANIFEST"] else [])
     ++ (if remove_quotes then ["REMOVEQUOTES"] else []))%list in
  if (0 <? length options)%nat then join " " options else EmptyString.

(** Lines 413-456: the statement before the load and the load itself. *)
Definition pre_sql1 (incremental : bool) : string :=
if negb incremental then "delete from %(tgt_table)s;
" else "
                drop table if exists tmp;
                create temporary table tmp (like %(tgt_table)s);
".

Definition cp_sql (incremental csv_fmt : bool) : string :=
if negb incremental then
  if csv_fmt then "
                COPY %(tgt_table)s from '%(s3_path)s'
                CREDENTIALS 'aws_access_key_id=%(aws_id)s;aws_secret_access_key=%(aws_key)s'
                dateformat 'YYYY-MM-DD'
                NULL AS 'None'
                truncatecolumns
                maxerror %(maxerror)s
                %(options)s;
"
  else "
                COPY %(tgt_table)s from '%(s3_path)s'
                CREDENTIALS 'aws_access_key_id=%(aws_id)s;aws_secret_access_key=%(aws_key)s'
                delimiter '%(delimiter)s'
                dateformat 'YYYY-MM-DD'
                NULL AS 'None'
                truncatecolumns
                maxerror %(maxerror)s
                %(options)s;
"
else
  if csv_fmt then "
                COPY tmp from '%(s3_path)s'
                CREDENTIALS 'aws_access_key_id=%(aws_id)s;aws_secret_access_key=%(aws_key)s'
                dateformat 'YYYY-MM-DD'
                NULL AS 'None'
                truncatecolumns
                maxerror %(maxerror)s %(options)s;
"
  else "
                COPY tmp from '%(s3_path)s'
                CREDENTIALS 'aws_access_key_id=%(aws_id)s;aws_secret_access_key=%(aws_key)s'
                delimiter '%(delimiter)s'
                dateformat 'YYYY-MM-DD'
                NULL AS 'None'
                truncatecolumns
                maxerror %(maxerror)s %(options)s;
".

(** Lines 458-467, taken only on the incremental path. *)
Definition upd_where (tgt_table : string) (key_fields : option (list string)) : string :=
  join " and "
    (map (fun x => "tmp." +:+ x +:+ " = " +:+ tgt_table +:+ "." +:+ x)
         (items key_fields)).

Definition upd_sql : string := "
                delete
                from %(tgt_table)s
                where exists
                  ( select 1
                    from tmp
                    where %(upd_where)s);
                insert into %(tgt_table)s
                select * from tmp;
".

(** Lines 469-477. *)
Definition subs (tgt_table s3_path : string) (maxerror : Z)
    (options upd_where delimiter : string) (csv_fmt : bool) : gmap string cell :=
  if csv_fmt then
    <["tgt_table" := CStr tgt_table]> (<["s3_path" := CStr s3_path]> (
    <["aws_id" := CStr (aws_access_key self)]> (
    <["aws_key" := CStr (aws_secret_key self)]> (
    <["maxerror" := CInt maxerror]> (<["options" := CStr options]> (
    <["upd_where" := CStr upd_where]> ∅))))))
  else
    <["tgt_table" := CStr tgt_table]> (<["s3_path" := CStr s3_path]> (
    <["aws_id" := CStr (aws_access_key self)]> (
    <["aws_key" := CStr (aws_secret_key self)]> (
    <["maxerror" := CInt maxerror]> (<["options" := CStr options]> (
    <["upd_where" := CStr upd_where]> (
    <["delimiter" := CStr delimiter]> ∅))))))).

(** Lines 400-479: the statement handed to the warehouse. *)
Definition load_sql (tgt_table s3_path : string) (incremental csv_fmt gzip manifest : bool)
    (maxerror : Z) (key_fields : option (list string)) (delimiter : string)
    (remove_quotes : bool) : result string :=
  let options := opt_str gzip manifest remove_quotes in
  if negb incremental then
    py_format (pre_sql1 incremental +:+ cp_sql incremental csv_fmt +:+ EmptyString)
              (subs tgt_table s3_path maxerror options EmptyString delimiter csv_fmt)
  else
    py_format (pre_sql1 incremental +:+ cp_sql incremental csv_fmt +:+ upd_sql)
              (subs tgt_table s3_path maxerror options
                    (upd_where tgt_table key_fields) delimiter csv_fmt).

(** Lines 370-495. *)
Definition s3_to_redshift (tgt_table s3_path : string)
    (incremental csv_fmt gzip manifest : bool) (maxerror : Z)
    (key_fields : option (list string)) (delimiter : string) (remove_quotes : bool)
  : M unit :=
  (if incremental && negb (truthy key_fields)
   then raise Exception_incremental_requires_keys
   else
     sql <- lift (load_sql tgt_table s3_path incremental csv_fmt gzip manifest
                           maxerror key_fields delimiter remove_quotes) ;;
     try_except
       (do pg_conn ;; do pg_batchOpen ;; do (pg_exec_sql sql))
       (fun e => raise e) ;;
     grant_std_access tgt_table ;;
     do pg_batchCommit)%M.

(** [not src_name] for a name that may be [None]. *)
Definition not_name (name : option string) : bool :=
  match name with
  | None | Some EmptyString => true
  | Some (String _ _) => false
  end.

(** Lines 582-639.  The branch on [not src_name] only writes a log line. *)
Definition stage_to_redshift (src_table tgt_table : string)
    (incremental gzip : bool) (date_fields : option (list string))
    (delimiter : string) (remove_quotes : bool)
    (key_fields : option (list string))
    (select_fields : option (list select_field))
    (source_system_cd : option string) : M unit :=
  (names <- clone_staging_table src_table tgt_table select_fields incremental ;;
   let '(src_name, tgt_name) := names in
   (if not_name src_name then ret tt else ret tt) ;;
   src_cnt <- get_src_count src_table ;;
   s3_path <- source_to_s3 src_table tgt_table None None select_fields
                           date_fields delimiter gzip source_system_cd ;;
   s3_to_redshift tgt_table s3_path incremental false gzip false 0
                  key_fields delimiter remove_quotes ;;
   check_tgt_count src_cnt tgt_table pct_threshold_default ;;
   ret tt)%M.

End Pipeline.

(** ** Definitions used to state the properties *)

(** The width the specification gives for a declared length [n]. *)
Definition clamped_width (n : Z) : Z :=
  if n >? 65535 then 65535 else if n <? 0 then 2000 else n.

(** The characters that normalisation blanks out. *)
Definition blanked (c : ascii) : bool :=
  Ascii.eqb c LF || Ascii.eqb c CR || Ascii.eqb c TAB || Ascii.eqb c VT.

Definition clean_char (c : ascii) : ascii := if blanked c then SPACE else c.

Fixpoint clean (s : string) : string :=
  match s with
  | EmptyString => EmptyString
  | String c s' => String (clean_char c) (clean s')
  end.

(** The filter as a condition: a comparison [field > from_date], or a
    disjunction. *)
Inductive cond : Type :=
  | Newer (field : string)
  | Or (a b : cond).

Fixpoint sql_of_cond (watermark : string) (c : cond) : string :=
  match c with
  | Newer f => f +:+ " > '" +:+ watermark +:+ "'"
  | Or a b => sql_of_cond watermark a +:+ " or " +:+ sql_of_cond watermark b
  end.

(** Whether a row satisfies a condition, given which of its fields are newer
    than the watermark. *)
Fixpoint holds (newer : string -> bool) (c : cond) : bool :=
  match c with
  | Newer f => newer f
  | Or a b => holds newer a || holds newer b
  end.

(** The disjunction over a non-empty list of date fields. *)
Fixpoint any_newer (f : string) (fs : list string) : cond :=
  match fs with
  | [] => Newer f
  | g :: gs => Or (Newer f) (any_newer g gs)
  end.

(** [needle] occurs in [s]. *)
Definition occurs_in (needle s : string) : Prop :=
  exists pre post, s = pre +:+ needle +:+ post.

(** A dictionary literal as the list of its items. *)
Fixpoint assoc (l : list (string * cell)) (name : string) : option cell :=
  match l with
  | [] => None
  | (k, v) :: r => if String.eqb k name then Some v else assoc r name
  end.

(** A computation only adds calls to the trace. *)
Definition extends {A} (m : M A) : Prop :=
  forall w t, exists t', fst (m w t) = (t ++ t')%list.

(** The double nearest to an integer. *)
Definition nearest_float (n : Z) : float := binary_normalize prec emax n 0 false.

(** The relative difference of the specification, in double precision:
    [(source_count - target_count) / source_count], the denominator being 1
    when [source_count] is 0. *)
Definition relative_diff (source_count target_count : Z) : float :=
  SFdiv prec emax (nearest_float (source_count - target_count))
        (nearest_float (if source_count =? 0 then 1 else source_count)).

(** ** Sample collaborators, used to run the pipeline on concrete inputs *)

(** Collaborators that never raise: the catalog answers [cols], the target
    table exists or not, the counts are [src_cnt] and [tgt_cnt], the
    extraction yields [rows], and the staging file is still there after the
    upload. *)
Definition sample_world (cols : list field) (tgt_exists : bool) (src_cnt tgt_cnt : Z)
    (rows : list (list value)) : world :=
  World (fun _ _ => Ok cols) (fun _ _ => Ok src_cnt) (fun _ _ => Ok rows)
        (fun _ _ => Ok tgt_exists) (fun _ _ => Ok tgt_cnt)
        (fun _ _ => true) (fun _ _ => None).

(** A session whose dates are given by their rendering. *)
Definition sample_strftime (d : string) (fmt : string) : string := d.

Definition sample_session : session string :=
  Session string (Some "2019-06-01 00:00") "2019-06-02 03:04:05" 1559444645
          "stage-bucket" "dev" "id" "secret".

Definition sample_stage (w : world) (incremental : bool)
    (key_fields : option (list string)) : trace * result unit :=
  stage_to_redshift string sample_strftime sample_session
    "dbo.orders" "stage.orders" incremental true None (String TAB EmptyString)
    false key_fields None None w [].

(** ** Further definitions used to state properties

    Beyond the methods above, the command line loop at the end of the
    module is modelled below.  [__init__] and [init] only build the
    session from the configuration and open the connections, and
    [build_rs_manifest], which no other method calls, talks to the object
    store through calls that are not part of [call]; they are not
    modelled. *)

(** A column the translation cannot type: a character type other than
    ["timestamp"] whose declared length is absent. *)
Definition untypable (f : field) : Prop :=
  field1 f ∈ rs_char_types /\ field1 f <> "timestamp" /\ field2 f = None.

(** Collaborators like [sample_world], except that every statement sent to
    the warehouse with [exec_sql] raises. *)
Definition exec_failing_world (cols : list field) (tgt_exists : bool) : world :=
  World (fun _ _ => Ok cols) (fun _ _ => Ok 0) (fun _ _ => Ok [])
        (fun _ _ => Ok tgt_exists) (fun _ _ => Ok 0)
        (fun _ _ => true)
        (fun _ c => match c with
                    | pg_exec_sql _ => Some (RemoteError "exec_sql")
                    | _ => None
                    end).

(** The statement that [clone_staging_table] sends for a translated column
    list [rows] (lines 202-262). *)
Definition clone_query (tgt_table rows : string) : string :=
  ("drop table if exists " +:+ tgt_table +:+ ";" +:+ nl)
  +:+ ("create table " +:+ tgt_table +:+ " (" +:+ nl +:+ rows +:+ meta_columns).

(** What a column keeps under field selection: its type, length, precision
    and scale. *)
Definition field_attrs (f : field) : string * option Z * option Z * option Z :=
  (field1 f, field2 f, field3 f, field4 f).

(** The number of occurrences of a character. *)
Fixpoint count_char (c : ascii) (s : string) : nat :=
  match s with
  | EmptyString => 0
  | String a s' => (if Ascii.eqb a c then 1 else 0) + count_char c s'
  end.

(** Where [source_to_s3] stages a table: the bucket and key it uploads to
    and the local file it writes (lines 302-308, 327 and 359). *)
Definition staging_bucket {datetime : Type} (self : session datetime)
    (s3_bucket : option string) : string :=
  match s3_bucket with Some b => b | None => conf_temp_bucket _ self end.

Definition staging_key {datetime : Type} (self : session datetime)
    (s3_key : option string) (tgt_table : string) : string :=
  match s3_key with
  | Some k => k
  | None => "rsqoop/" +:+ s3_env _ self +:+ "/" +:+ replace "." "-" tgt_table
  end.

Definition staging_file (tgt_table : string) : string :=
  "temp/" +:+ replace "." "-" tgt_table +:+ ".txt".


(** The statement of [grant_std_access] (lines 575-578). *)
Definition grant_sql (entity : string) : string :=
  "
            grant all on " +:+ entity +:+ " to etl_user;
            grant all on " +:+ entity +:+ " to group ro_users;
            grant all on "
    +:+ entity +:+ " to group power_users;
".

(** The calls of [s3_to_redshift] for a load statement [sql], in order. *)
Definition load_calls (tgt_table sql : string) : list call :=
  [pg_conn; pg_batchOpen; pg_exec_sql sql; pg_exec_sql (grant_sql tgt_table);
   pg_batchCommit; pg_batchCommit].

(** Floats that are not below zero (a NaN compares false with everything),
    and floats that are not above zero. *)
Definition nonneg_float (x : float) : bool :=
  match x with
  | S754_zero _ | S754_finite false _ _ | S754_infinity false | S754_nan => true
  | _ => false
  end.

Definition nonpos_float (x : float) : bool :=
  match x with
  | S754_zero _ | S754_finite true _ _ | S754_infinity true | S754_nan => true
  | _ => false
  end.

(** ** The command line loop (lines 658-674)

    The parsed arguments and the loop over the table pairs.  [l[i]] raises
    [IndexError] past the end of [l]; the loop calls [stage_to_redshift]
    without a delimiter, so with its default, the tab. *)
Record args : Type := Args {
  arg_source_tables : list string;
  arg_target_tables : list string;
  arg_incremental : bool;
  arg_gzip : bool;
  arg_remove_quotes : bool;
  arg_select_fields : option (list string);
  arg_key_fields : option (list string);
  arg_date_fields : option (list string);
  arg_source_system : option string
}.

Definition py_index {A} (l : list A) (i : nat) : result A :=
  match l !! i with
  | Some x => Ok x
  | None => Raise IndexError
  end.

(** [n] more rounds of the loop, from the index [i]. *)
Fixpoint main_loop {datetime : Type} (strftime : datetime -> string -> string)
    (r : session datetime) (a : args) (n i : nat) : M unit :=
  match n with
  | O => ret tt
  | S n' =>
      (source_table <- lift (py_index (arg_source_tables a) i) ;;
       target_table <- lift (py_index (arg_target_tables a) i) ;;
       stage_to_redshift _ strftime r source_table target_table
         (arg_incremental a) (arg_gzip a) (arg_date_fields a)
         (String TAB EmptyString) (arg_remove_quotes a) (arg_key_fields a)
         (option_map (map SelStr) (arg_select_fields a)) (arg_source_system a) ;;
       main_loop strftime r a n' (S i))%M
  end.

(** [for i in range(len(args.source_tables)): ...]. *)
Definition main {datetime : Type} (strftime : datetime -> string -> string)
    (r : session datetime) (a : args) : M unit :=
  main_loop strftime r a (length (arg_source_tables a)) 0.

Definition sample_args (source_tables target_tables : list string) : args :=
  Args source_tables target_tables false true false None None None None.

(** * Properties *)

(** ** Examples *)

Example data_type_int : data_type (Field "id" "int" None (Some 10) (Some 0)) = Ok "integer".
Proof. reflexivity. Qed.
Example data_type_varchar10 :
  data_type (Field "nm" "varchar" (Some 10) None None) = Ok "varchar (10)".
Proof. reflexivity. Qed.
Example data_type_text_null :
  data_type (Field "nm" "text" None None None) = Raise TypeError.
Proof. reflexivity. Qed.
Example data_type_numeric :
  data_type (Field "nm" "numeric" None (Some 10) None) = Ok "numeric (10,None)".
Proof. reflexivity. Qed.
Example create_row_partition :
  create_row (Field "Partition" "datetime" None None None)
  = Ok (dquote +:+ "v_Partition" +:+ dquote +:+ " timestamp," +:+ nl).
Proof. reflexivity. Qed.


(** ** Type translation *)

Lemma elem_of_rs_char_types ty :
  ty ∈ rs_char_types ->
  ty = "timestamp" \/ ty = "char" \/ ty = "varchar" \/ ty = "character"
  \/ ty = "nchar" \/ ty = "bpchar" \/ ty = "character varying"
  \/ ty = "nvarchar" \/ ty = "text".
Proof.
  unfold rs_char_types. rewrite !elem_of_cons, elem_of_nil. tauto.
Qed.

(** Case analysis on a character type other than ["timestamp"]. *)
Ltac char_cases H Hts :=
  apply elem_of_rs_char_types in H;
  destruct H as [H|[H|[H|[H|[H|[H|[H|[H|H]]]]]]]];
  [ exfalso; exact (Hts H) | subst .. ].

Lemma size_present name ty n p s :
  ty <> "timestamp" ->
  size (Field name ty (Some n) p s) = Ok (Some (clamped_width n)).
Proof.
  intros Hts. unfold size, clamped_width; simpl.
  destruct (String.eqb_spec ty "timestamp") as [E|_]; [contradiction|].
  destruct (n >? 65535); [reflexivity|].
  destruct (n <? 0); reflexivity.
Qed.

Lemma size_absent name ty p s :
  ty <> "timestamp" ->
  size (Field name ty None p s) = Raise TypeError.
Proof.
  intros Hts. unfold size; simpl.
  destruct (String.eqb_spec ty "timestamp") as [E|_]; [contradiction|reflexivity].
Qed.

(** C3.  A character column other than ["timestamp"] whose declared length
    is absent is not translated to [varchar(2000)]: evaluating
    [int(field[2])] on [None] raises [TypeError], so the translation is not
    total. *)
Theorem data_type_char_null_length_raises name ty p s :
  ty ∈ rs_char_types -> ty <> "timestamp" ->
  data_type (Field name ty None p s) = Raise TypeError.
Proof.
  intros Hin Hts. char_cases Hin Hts; reflexivity.
Qed.

Lemma data_type_char_null_length_raises_witness :
  data_type (Field "notes" "text" None None None) = Raise TypeError.
Proof.
  apply (data_type_char_null_length_raises "notes" "text" None None).
  - unfold rs_char_types. rewrite !elem_of_cons. tauto.
  - discriminate.
Defined.

(** C6.  A character column with a declared length [n] gets the width
    65535 when [n > 65535], 2000 when [n < 0] and [n] otherwise; a column of
    type ["timestamp"] is emitted as a [varchar] of width 8, whatever its
    declared length. *)
Theorem data_type_char_width name ty n len p s :
  ty ∈ rs_char_types -> ty <> "timestamp" ->
  data_type (Field name ty (Some n) p s)
  = Ok (field_type (Field name ty (Some n) p s)
        +:+ " (" +:+ str_int (clamped_width n) +:+ ")")
  /\ (n > 65535 -> clamped_width n = 65535)
  /\ (n < 0 -> clamped_width n = 2000)
  /\ (0 <= n <= 65535 -> clamped_width n = n)
  /\ data_type (Field name "timestamp" len p s) = Ok "varchar (8)".
Proof.
  intros Hin Hts. refine (conj _ (conj _ (conj _ (conj _ _)))).
  - assert (Hsz := size_present name ty n p s Hts).
    char_cases Hin Hts; unfold data_type; rewrite Hsz; reflexivity.
  - intros H. unfold clamped_width.
    destruct (Z.gtb_spec n 65535); [reflexivity | lia].
  - intros H. unfold clamped_width.
    destruct (Z.gtb_spec n 65535); [lia|].
    destruct (Z.ltb_spec n 0); [reflexivity | lia].
  - intros H. unfold clamped_width.
    destruct (Z.gtb_spec n 65535); [lia|].
    destruct (Z.ltb_spec n 0); [lia | reflexivity].
  - reflexivity.
Qed.

Lemma data_type_char_width_witness :
  data_type (Field "nm" "nvarchar" (Some 100000) None None) = Ok "nvarchar (65535)"
  /\ data_type (Field "nm" "text" (Some (-1)) None None) = Ok "varchar (2000)"
  /\ data_type (Field "nm" "char" (Some 10) None None) = Ok "char (10)"
  /\ data_type (Field "nm" "timestamp" None None None) = Ok "varchar (8)".
Proof.
  assert (Hin : forall ty, ty = "nvarchar" \/ ty = "text" \/ ty = "char" ->
                           ty ∈ rs_char_types).
  { intros ty [-> | [-> | ->]]; unfold rs_char_types; rewrite !elem_of_cons; tauto. }
  refine (conj _ (conj _ (conj _ _))).
  - exact (proj1 (data_type_char_width "nm" "nvarchar" 100000 None None None
                    (Hin _ (or_introl eq_refl)) ltac:(discriminate))).
  - exact (proj1 (data_type_char_width "nm" "text" (-1) None None None
                    (Hin _ (or_intror (or_introl eq_refl))) ltac:(discriminate))).
  - exact (proj1 (data_type_char_width "nm" "char" 10 None None None
                    (Hin _ (or_intror (or_intror eq_refl))) ltac:(discriminate))).
  - exact (proj2 (proj2 (proj2 (proj2
             (data_type_char_width "nm" "char" 10 None None None
                (Hin _ (or_intror (or_intror eq_refl))) ltac:(discriminate)))))).
Defined.

(** C9.  [uniqueidentifier] translates to [varchar(36)] and [uuid] to
    [varchar(50)], for every name, length, precision and scale; the two
    target types differ. *)
Theorem data_type_uniqueidentifier_uuid name len p s :
  data_type (Field name "uniqueidentifier" len p s) = Ok "varchar(36)"
  /\ data_type (Field name "uuid" len p s) = Ok "varchar(50)"
  /\ data_type (Field name "uniqueidentifier" len p s)
     <> data_type (Field name "uuid" len p s).
Proof.
  repeat split; try reflexivity.
  discriminate.
Qed.

(** ** Row normalisation *)

Lemma replace_chain_char (c : ascii) :
  (let c1 := if Ascii.eqb c LF then SPACE else c in
   let c2 := if Ascii.eqb c1 TAB then SPACE else c1 in
   let c3 := if Ascii.eqb c2 CR then SPACE else c2 in
   if Ascii.eqb c3 VT then SPACE else c3) = clean_char c.
Proof.
  unfold clean_char, blanked.
  destruct (Ascii.eqb_spec c LF) as [->|_]; [reflexivity|].
  destruct (Ascii.eqb_spec c TAB) as [->|_]; [reflexivity|].
  destruct (Ascii.eqb_spec c CR) as [->|_]; [reflexivity|].
  destruct (Ascii.eqb_spec c VT) as [->|_]; reflexivity.
Qed.

Lemma replace_chain (s : string) :
  replace VT SPACE (replace CR SPACE (replace TAB SPACE (replace LF SPACE s)))
  = clean s.
Proof.
  induction s as [|c s IH]; [reflexivity|].
  cbn [replace clean]. rewrite IH. f_equal. apply replace_chain_char.
Qed.

Lemma clean_length (s : string) : String.length (clean s) = String.length s.
Proof. induction s as [|c s IH]; [reflexivity|]. cbn. now rewrite IH. Qed.

Lemma clean_get (s : string) (i : nat) :
  String.get i (clean s) = option_map clean_char (String.get i s).
Proof.
  revert i. induction s as [|c s IH]; intros i; [reflexivity|].
  destruct i as [|i]; [reflexivity|]. cbn. apply IH.
Qed.

(** C7.  A boolean becomes the integer 1 or 0; every other value becomes its
    [str] text in which each newline, carriage return, tab and vertical tab
    is a single space and every other character is unchanged, position by
    position. *)
Theorem normalize_scalar (s : value) :
  match s with
  | VBool b => normalize s = CInt (if b then 1 else 0)
  | _ =>
      normalize s = CStr (clean (py_str s))
      /\ String.length (clean (py_str s)) = String.length (py_str s)
      /\ forall i c, String.get i (py_str s) = Some c ->
           String.get i (clean (py_str s))
           = Some (if Ascii.eqb c LF || Ascii.eqb c CR || Ascii.eqb c TAB
                      || Ascii.eqb c VT
                   then SPACE else c)
  end.
Proof.
  assert (H : forall t, String.length (clean t) = String.length t
              /\ forall i c, String.get i t = Some c ->
                   String.get i (clean t)
                   = Some (if Ascii.eqb c LF || Ascii.eqb c CR || Ascii.eqb c TAB
                              || Ascii.eqb c VT
                           then SPACE else c)).
  { intros t. split; [apply clean_length|].
    intros i c Hc. rewrite clean_get, Hc. reflexivity. }
  destruct s; try reflexivity;
    (split; [unfold normalize; now rewrite replace_chain | apply H]).
Qed.

Example normalize_true : normalize (VBool true) = CInt 1.
Proof. reflexivity. Qed.
Example normalize_text :
  normalize (VStr ("a" +:+ String LF ("b" +:+ String TAB "c"))) = CStr "a b c".
Proof. reflexivity. Qed.
Example normalize_int : normalize (VInt 1) = CStr "1".
Proof. reflexivity. Qed.

(** ** The incremental date filter *)

Lemma append_assoc (a b c : string) : (a +:+ b) +:+ c = a +:+ (b +:+ c).
Proof.
  induction a as [|x a IH]; [reflexivity|].
  change (String x ((a +:+ b) +:+ c) = String x (a +:+ (b +:+ c))).
  now rewrite IH.
Qed.

Lemma join_any_newer (watermark f : string) (fs : list string) :
  join " or " (map (fun date => date +:+ " > '" +:+ watermark +:+ "'") (f :: fs))
  = sql_of_cond watermark (any_newer f fs).
Proof.
  revert f. induction fs as [|g gs IH]; intros f; [reflexivity|].
  change (join " or " (map (fun date => date +:+ " > '" +:+ watermark +:+ "'")
                           (f :: g :: gs)))
    with ((f +:+ " > '" +:+ watermark +:+ "'") +:+ " or "
          +:+ join " or " (map (fun date => date +:+ " > '" +:+ watermark +:+ "'")
                               (g :: gs))).
  rewrite IH. reflexivity.
Qed.

Lemma holds_any_newer (newer : string -> bool) (f : string) (fs : list string) :
  holds newer (any_newer f fs) = existsb newer (f :: fs).
Proof.
  revert f. induction fs as [|g gs IH]; intros f.
  - cbn. now rewrite orb_false_r.
  - cbn [any_newer holds]. rewrite IH. reflexivity.
Qed.

(** C8.  With a watermark and a non-empty list of date fields the filter is
    [where] followed by the disjunction of [field > 'watermark'] over the
    listed fields, which a row satisfies exactly when one of its listed
    fields is newer; without a watermark, or without date fields, the filter
    is empty. *)
Theorem filter_str_any_newer (datetime : Type) (strftime : datetime -> string -> string)
    (self : session datetime) (date_fields : option (list string)) :
  (forall d f fs,
      from_date _ self = Some d -> date_fields = Some (f :: fs) ->
      filter_str _ strftime self date_fields
      = "where " +:+ sql_of_cond (strftime d "%Y-%m-%d %H:%M") (any_newer f fs)
      /\ forall newer, holds newer (any_newer f fs) = existsb newer (f :: fs))
  /\ (from_date _ self = None \/ date_fields = None \/ date_fields = Some [] ->
      filter_str _ strftime self date_fields = EmptyString).
Proof.
  split.
  - intros d f fs Hd Hf. split; [|intros newer; apply holds_any_newer].
    unfold filter_str. rewrite Hd, Hf. cbn [truthy items].
    now rewrite join_any_newer.
  - intros H. unfold filter_str.
    destruct (from_date _ self); [|reflexivity].
    destruct H as [H|[->| ->]]; [discriminate| |]; reflexivity.
Qed.

(** ** The load statement and the null sentinel *)

Lemma occurs_in_here (needle s post : string) :
  s = needle +:+ post -> occurs_in needle s.
Proof. intros ->. exists EmptyString, post. reflexivity. Qed.

Lemma occurs_in_String (needle : string) (c : ascii) (s : string) :
  occurs_in needle s -> occurs_in needle (String c s).
Proof. intros (pre & post & ->). exists (String c pre), post. reflexivity. Qed.

Lemma occurs_in_append (needle a s : string) :
  occurs_in needle s -> occurs_in needle (a +:+ s).
Proof.
  intros (pre & post & ->). exists (a +:+ pre), post.
  now rewrite append_assoc.
Qed.

(** Walks down a string built from characters and appended parts until the
    needle is at the front. *)
Ltac find_occurrence :=
  repeat first
    [ solve [eapply occurs_in_here; reflexivity]
    | apply occurs_in_String
    | apply occurs_in_append ].

(** Substitution only looks at the dictionary through its lookups. *)
Lemma format_ext (get1 get2 : string -> option cell) :
  (forall name, get1 name = get2 name) ->
  forall template st, format template st get1 = format template st get2.
Proof.
  intros Hget template.
  induction template as [|c rest IH]; intros st; [reflexivity|].
  destruct st; cbn [format]; rewrite ?Hget, ?IH; try reflexivity.
  destruct (get2 name); now rewrite ?IH.
Qed.

Lemma lookup_insert_eqb (m : gmap string cell) (k name : string) (v : cell) :
  <[k := v]> m !! name = if String.eqb k name then Some v else m !! name.
Proof.
  destruct (String.eqb_spec k name) as [->|Hne].
  - apply lookup_insert_eq.
  - now apply lookup_insert_ne.
Qed.

Lemma subs_assoc (datetime : Type) (self : session datetime)
    (tgt_table s3_path : string) (maxerror : Z)
    (options upd_where delimiter : string) (csv_fmt : bool) (name : string) :
  subs _ self tgt_table s3_path maxerror options upd_where delimiter csv_fmt !! name
  = assoc ([("tgt_table", CStr tgt_table); ("s3_path", CStr s3_path);
            ("aws_id", CStr (aws_access_key _ self));
            ("aws_key", CStr (aws_secret_key _ self));
            ("maxerror", CInt maxerror); ("options", CStr options);
            ("upd_where", CStr upd_where)]
           ++ if csv_fmt then [] else [("delimiter", CStr delimiter)])%list name.
Proof.
  unfold subs. destruct csv_fmt; rewrite !lookup_insert_eqb, lookup_empty; reflexivity.
Qed.

Lemma load_sql_null_as (datetime : Type) (self : session datetime)
    (tgt_table s3_path : string) (incremental csv_fmt gzip manifest : bool)
    (maxerror : Z) (key_fields : option (list string)) (delimiter : string)
    (remove_quotes : bool) :
  exists sql,
    load_sql _ self tgt_table s3_path incremental csv_fmt gzip manifest maxerror
             key_fields delimiter remove_quotes = Ok sql
    /\ occurs_in "NULL AS 'None'" sql.
Proof.
  unfold load_sql, py_format.
  destruct incremental, csv_fmt; cbn [negb]; eexists;
    (split;
     [ erewrite format_ext by (intros; apply subs_assoc);
       lazy -[str_int String.append upd_where opt_str aws_access_key aws_secret_key];
       reflexivity
     | ]).
  all: find_occurrence.
Qed.

Lemma try_except_reraise {A} (m : M A) (w : world) (t : trace) :
  try_except m (fun e => raise e) w t = m w t.
Proof.
  unfold try_except, raise. destruct (m w t) as [t' [a|e]]; reflexivity.
Qed.

(** What [s3_to_redshift] does once its parameters pass the check. *)
Lemma s3_to_redshift_run (datetime : Type) (self : session datetime)
    (tgt_table s3_path : string) (incremental csv_fmt gzip manifest : bool)
    (maxerror : Z) (key_fields : option (list string)) (delimiter : string)
    (remove_quotes : bool) (sql : string) (w : world) (t : trace) :
  incremental && negb (truthy key_fields) = false ->
  load_sql _ self tgt_table s3_path incremental csv_fmt gzip manifest maxerror
           key_fields delimiter remove_quotes = Ok sql ->
  s3_to_redshift _ self tgt_table s3_path incremental csv_fmt gzip manifest maxerror
                 key_fields delimiter remove_quotes w t
  = (do pg_conn ;; do pg_batchOpen ;; do (pg_exec_sql sql) ;;
     grant_std_access tgt_table ;; do pg_batchCommit)%M w t.
Proof.
  intros Hchk Hsql. unfold s3_to_redshift. rewrite Hchk, Hsql.
  unfold bind at 1. unfold lift at 1.
  unfold bind at 1. rewrite try_except_reraise.
  unfold bind.
  destruct (do pg_conn w t) as [t1 [[]|e]]; [|reflexivity].
  destruct (do pg_batchOpen w t1) as [t2 [[]|e]]; [|reflexivity].
  destruct (do (pg_exec_sql sql) w t2) as [t3 [[]|e]]; reflexivity.
Qed.

(** C10.  [None] is staged as the four characters [None], exactly as a
    source text [None] is; and whatever the flags, the statement that
    [s3_to_redshift] hands to the warehouse declares [NULL AS 'None']. *)
Theorem null_sentinel (datetime : Type) (self : session datetime)
    (tgt_table s3_path : string) (incremental csv_fmt gzip manifest : bool)
    (maxerror : Z) (key_fields : option (list string)) (delimiter : string)
    (remove_quotes : bool) :
  normalize VNone = CStr "None"
  /\ normalize (VStr "None") = normalize VNone
  /\ exists sql,
       load_sql _ self tgt_table s3_path incremental csv_fmt gzip manifest maxerror
                key_fields delimiter remove_quotes = Ok sql
       /\ occurs_in "NULL AS 'None'" sql
       /\ forall w t,
            incremental && negb (truthy key_fields) = false ->
            s3_to_redshift _ self tgt_table s3_path incremental csv_fmt gzip manifest
                           maxerror key_fields delimiter remove_quotes w t
            = (do pg_conn ;; do pg_batchOpen ;; do (pg_exec_sql sql) ;;
               grant_std_access tgt_table ;; do pg_batchCommit)%M w t.
Proof.
  split; [reflexivity|]. split; [reflexivity|].
  destruct (load_sql_null_as datetime self tgt_table s3_path incremental csv_fmt
              gzip manifest maxerror key_fields delimiter remove_quotes)
    as (sql & Hsql & Hocc).
  exists sql. split; [exact Hsql|]. split; [exact Hocc|].
  intros w t Hchk. now apply s3_to_redshift_run.
Qed.

(** ** The trace only grows *)

Lemma extends_ret {A} (a : A) : extends (ret a).
Proof. intros w t. exists []. cbn. now rewrite app_nil_r. Qed.

Lemma extends_raise {A} (e : exn) : extends (@raise A e).
Proof. intros w t. exists []. cbn. now rewrite app_nil_r. Qed.

Lemma extends_lift {A} (r : result A) : extends (lift r).
Proof. intros w t. exists []. cbn. now rewrite app_nil_r. Qed.

Lemma extends_ask {A} (c : call) (answer : world -> trace -> result A) :
  extends (ask c answer).
Proof. intros w t. exists [c]. reflexivity. Qed.

Lemma extends_do (c : call) : extends (do c).
Proof. apply extends_ask. Qed.

Lemma extends_bind {A B} (m : M A) (k : A -> M B) :
  extends m -> (forall a, extends (k a)) -> extends (bind m k).
Proof.
  intros Hm Hk w t. unfold bind.
  destruct (Hm w t) as [t1 H1]. destruct (m w t) as [t' [a|e]]; cbn in H1; subst t'.
  - destruct (Hk a w (t ++ t1)%list) as [t2 H2]. exists (t1 ++ t2)%list.
    now rewrite H2, app_assoc.
  - now exists t1.
Qed.

Lemma extends_try_except {A} (m : M A) (h : exn -> M A) :
  extends m -> (forall e, extends (h e)) -> extends (try_except m h).
Proof.
  intros Hm Hh w t. unfold try_except.
  destruct (Hm w t) as [t1 H1]. destruct (m w t) as [t' [a|e]]; cbn in H1; subst t'.
  - now exists t1.
  - destruct (Hh e w (t ++ t1)%list) as [t2 H2]. exists (t1 ++ t2)%list.
    now rewrite H2, app_assoc.
Qed.

Create HintDb extends.
#[export] Hint Resolve extends_ret extends_raise extends_lift extends_ask extends_do
  : extends.

Ltac extends_step :=
  first
    [ solve [auto with extends]
    | match goal with
      | |- extends (bind _ _) => apply extends_bind; [|intros]
      | |- extends (try_except _ _) => apply extends_try_except; [|intros]
      | |- extends (if ?b then _ else _) => destruct b
      | |- extends (match ?x with _ => _ end) => destruct x
      | |- extends (let _ := _ in _) => cbv zeta
      end ].

Lemma extends_get_source_table_schema src_table :
  extends (get_source_table_schema src_table).
Proof. unfold get_source_table_schema. repeat extends_step. Qed.
#[export] Hint Resolve extends_get_source_table_schema : extends.

Lemma extends_clone_staging_table src_table tgt_table select_fields incremental :
  extends (clone_staging_table src_table tgt_table select_fields incremental).
Proof. unfold clone_staging_table. repeat extends_step. Qed.

Lemma extends_get_src_count src_table : extends (get_src_count src_table).
Proof. unfold get_src_count. repeat extends_step. Qed.

Lemma extends_check_tgt_count src_cnt tgt_table thr :
  extends (check_tgt_count src_cnt tgt_table thr).
Proof. unfold check_tgt_count. repeat extends_step. Qed.

Lemma extends_grant_std_access entity : extends (grant_std_access entity).
Proof. unfold grant_std_access. repeat extends_step. Qed.
#[export] Hint Resolve extends_clone_staging_table extends_get_src_count
  extends_check_tgt_count extends_grant_std_access : extends.

Lemma extends_write_rows name delimiter rows meta :
  extends (write_rows name delimiter rows meta).
Proof.
  induction rows as [|row rows IH]; cbn [write_rows]; repeat extends_step.
Qed.
#[export] Hint Resolve extends_write_rows : extends.

Section PipelineTrace.

Variable datetime : Type.
Variable strftime : datetime -> string -> string.
Variable self : session datetime.

Lemma extends_source_to_s3 src_table tgt_table s3_bucket s3_key select_fields
    date_fields delimiter gzip source_system_cd :
  extends (source_to_s3 _ strftime self src_table tgt_table s3_bucket s3_key
             select_fields date_fields delimiter gzip source_system_cd).
Proof. unfold source_to_s3. repeat extends_step. Qed.

Lemma extends_s3_to_redshift tgt_table s3_path incremental csv_fmt gzip manifest
    maxerror key_fields delimiter remove_quotes :
  extends (s3_to_redshift _ self tgt_table s3_path incremental csv_fmt gzip
             manifest maxerror key_fields delimiter remove_quotes).
Proof. unfold s3_to_redshift. repeat extends_step. Qed.

Lemma extends_stage_to_redshift src_table tgt_table incremental gzip date_fields
    delimiter remove_quotes key_fields select_fields source_system_cd :
  extends (stage_to_redshift _ strftime self src_table tgt_table incremental gzip
             date_fields delimiter remove_quotes key_fields select_fields
             source_system_cd).
Proof.
  pose proof extends_source_to_s3. pose proof extends_s3_to_redshift.
  unfold stage_to_redshift. repeat extends_step.
Qed.

End PipelineTrace.

(** ** Ordering of the pipeline *)

Section PipelineOrder.

Variable datetime : Type.
Variable strftime : datetime -> string -> string.
Variable self : session datetime.

Lemma s3_to_redshift_without_keys tgt_table s3_path csv_fmt gzip manifest maxerror
    key_fields delimiter remove_quotes w t :
  truthy key_fields = false ->
  s3_to_redshift _ self tgt_table s3_path true csv_fmt gzip manifest maxerror
                 key_fields delimiter remove_quotes w t
  = (t, Raise Exception_incremental_requires_keys).
Proof. intros Hk. unfold s3_to_redshift. rewrite Hk. reflexivity. Qed.

(** C1, as the code has it.  With [incremental] set and no key fields, the
    load step raises the configuration error before it makes any call; the
    pipeline itself checks nothing up front, so it is the sequence clone,
    source count, extraction, followed by that error: the load statement,
    the grants and the count check never run. *)
Theorem stage_to_redshift_incremental_without_keys src_table tgt_table gzip
    date_fields delimiter remove_quotes key_fields select_fields source_system_cd :
  truthy key_fields = false ->
  (forall s3_path csv_fmt manifest maxerror w t,
      s3_to_redshift _ self tgt_table s3_path true csv_fmt gzip manifest maxerror
                     key_fields delimiter remove_quotes w t
      = (t, Raise Exception_incremental_requires_keys))
  /\ forall w t,
       stage_to_redshift _ strftime self src_table tgt_table true gzip date_fields
                         delimiter remove_quotes key_fields select_fields
                         source_system_cd w t
       = (names <- clone_staging_table src_table tgt_table select_fields true ;;
          src_cnt <- get_src_count src_table ;;
          s3_path <- source_to_s3 _ strftime self src_table tgt_table None None
                                  select_fields date_fields delimiter gzip
                                  source_system_cd ;;
          raise Exception_incremental_requires_keys)%M w t.
Proof.
  intros Hk. split.
  - intros. now apply s3_to_redshift_without_keys.
  - intros w t. unfold stage_to_redshift, bind.
    destruct (clone_staging_table _ _ _ _ w t) as [t1 [[src_name tgt_name]|e]];
      [|reflexivity].
    destruct (not_name src_name); cbn [ret];
      (destruct (get_src_count _ w t1) as [t2 [src_cnt|e]]; [|reflexivity];
       destruct (source_to_s3 _ _ _ _ _ _ _ _ _ _ _ _ w t2) as [t3 [s3_path|e]];
         [|reflexivity];
       now rewrite s3_to_redshift_without_keys).
Qed.

(** The run of [clone_staging_table] when the resolved schema is empty. *)
Lemma clone_staging_table_empty_schema src_table tgt_table select_fields incremental
    schema_name table_name cols tgt_exists w t :
  schema_and_table src_table = Ok (schema_name, table_name) ->
  w_columns w t (schema_sql table_name schema_name) = Ok cols ->
  get_fields select_fields cols = Ok [] ->
  w_tgt_exists w (t ++ [sql_fetch_sql_all (schema_sql table_name schema_name)])%list
               tgt_table = Ok tgt_exists ->
  clone_staging_table src_table tgt_table select_fields incremental w t
  = ((t ++ [sql_fetch_sql_all (schema_sql table_name schema_name)])
       ++ [pg_table_exists tgt_table], Ok (None, None))%list.
Proof.
  intros Hst Hcols Hsel Hex.
  unfold clone_staging_table, get_source_table_schema, bind, lift, ask.
  rewrite Hst. cbn [fst snd]. rewrite Hcols, Hsel, Hex. reflexivity.
Qed.

(** C2, on the code.  When the resolved schema is empty,
    [clone_staging_table] returns [(None, None)] without raising, and
    [stage_to_redshift] goes on: its next call is the source count
    query. *)
Theorem stage_to_redshift_continues_on_empty_schema src_table tgt_table incremental
    gzip date_fields delimiter remove_quotes key_fields select_fields
    source_system_cd schema_name table_name cols tgt_exists w t :
  schema_and_table src_table = Ok (schema_name, table_name) ->
  w_columns w t (schema_sql table_name schema_name) = Ok cols ->
  get_fields select_fields cols = Ok [] ->
  w_tgt_exists w (t ++ [sql_fetch_sql_all (schema_sql table_name schema_name)])%list
               tgt_table = Ok tgt_exists ->
  let t_clone :=
    ((t ++ [sql_fetch_sql_all (schema_sql table_name schema_name)])
       ++ [pg_table_exists tgt_table])%list in
  clone_staging_table src_table tgt_table select_fields incremental w t
  = (t_clone, Ok (None, None))
  /\ exists t',
       fst (stage_to_redshift _ strftime self src_table tgt_table incremental gzip
              date_fields delimiter remove_quotes key_fields select_fields
              source_system_cd w t)
       = (t_clone ++ sql_fetch_sql_all ("select count(1) from " +:+ src_table) :: t')%list.
Proof.
  intros Hst Hcols Hsel Hex t_clone.
  pose proof (clone_staging_table_empty_schema src_table tgt_table select_fields
                incremental schema_name table_name cols tgt_exists w t
                Hst Hcols Hsel Hex) as Hclone.
  fold t_clone in Hclone. split; [exact Hclone|].
  unfold stage_to_redshift. unfold bind at 1. rewrite Hclone.
  cbn [not_name]. unfold bind at 1. cbn [ret].
  unfold bind at 1. unfold get_src_count at 1. unfold ask at 1.
  destruct (w_src_cnt w t_clone _) as [src_cnt|e].
  - match goal with
    | |- context [?k w (t_clone ++ [?c])%list] =>
        assert (Hext : extends k)
    end.
    { pose proof (extends_source_to_s3 datetime strftime self).
      pose proof (extends_s3_to_redshift datetime self).
      repeat extends_step. }
    destruct (Hext w (t_clone ++ [sql_fetch_sql_all
                                    ("select count(1) from " +:+ src_table)])%list)
      as [t' Ht'].
    exists t'. rewrite Ht'. now rewrite <- app_assoc.
  - exists []. reflexivity.
Qed.

(** The query that [source_to_s3] sends to the source carries the filter:
    without a field selection it is the first call of the extraction. *)
Lemma source_to_s3_query src_table tgt_table s3_bucket s3_key select_fields
    date_fields delimiter gzip source_system_cd w t :
  truthy select_fields = false ->
  exists t',
    fst (source_to_s3 _ strftime self src_table tgt_table s3_bucket s3_key
           select_fields date_fields delimiter gzip source_system_cd w t)
    = (t ++ sql_fetch_sql
              ("select * from " +:+ src_table +:+ " with (nolock) "
                 +:+ filter_str _ strftime self date_fields)
              (Some 20000) :: t')%list.
Proof.
  intros Hsel. unfold source_to_s3. rewrite Hsel. cbv zeta.
  unfold bind at 1. cbn [ret].
  unfold bind at 1. unfold ask at 1.
  destruct (w_rows w t _) as [rows|e].
  - match goal with
    | |- context [?k w (t ++ [?c])%list] => assert (Hext : extends k)
    end.
    { repeat extends_step. }
    match goal with
    | |- context [?k w (t ++ [?c])%list] =>
        destruct (Hext w (t ++ [c])%list) as [t' Ht']
    end.
    exists t'. rewrite Ht'. now rewrite <- app_assoc.
  - exists []. reflexivity.
Qed.

End PipelineOrder.

(** C1 as stated fails on the code: the configuration error is not raised
    before the first call of the pipeline.  On a
    source with one column and a target that does not exist yet, the run
    with [incremental] and no key fields ends in the configuration error
    only after the catalog query, the creation of the target table, the
    source count, the extraction and the upload. *)
Lemma stage_to_redshift_checks_late :
  let run := sample_stage
               (sample_world [Field "id" "int" None (Some 10) (Some 0)] false 1 1
                             [[VInt 1]])
               true None in
  snd run = Raise Exception_incremental_requires_keys
  /\ fst run <> []
  /\ nth_error (fst run) 0 = Some (sql_fetch_sql_all (schema_sql "orders" "dbo"))
  /\ (exists sql, nth_error (fst run) 2 = Some (pg_exec_sql sql))
  /\ nth_error (fst run) 4 = Some (sql_fetch_sql_all "select count(1) from dbo.orders")
  /\ nth_error (fst run) 5
     = Some (sql_fetch_sql "select * from dbo.orders with (nolock) " (Some 20000))
  /\ nth_error (fst run) 15
     = Some (s3_put_file_to_s3 "stage-bucket" "rsqoop/dev/stage-orders/output.tsv"
                               "temp/stage-orders.txt").
Proof.
  vm_compute.
  refine (conj eq_refl (conj _ (conj eq_refl (conj _ (conj eq_refl
           (conj eq_refl eq_refl)))))).
  - discriminate.
  - eexists. reflexivity.
Qed.

Lemma stage_to_redshift_incremental_without_keys_witness :
  truthy (@None (list string)) = false
  /\ sample_stage (sample_world [Field "id" "int" None (Some 10) (Some 0)] true 1 1
                                [[VInt 1]]) true None
     = (names <- clone_staging_table "dbo.orders" "stage.orders" None true ;;
        src_cnt <- get_src_count "dbo.orders" ;;
        s3_path <- source_to_s3 _ sample_strftime sample_session "dbo.orders"
                                "stage.orders" None None None None
                                (String TAB EmptyString) true None ;;
        raise Exception_incremental_requires_keys)%M
         (sample_world [Field "id" "int" None (Some 10) (Some 0)] true 1 1 [[VInt 1]])
         [].
Proof.
  split; [reflexivity|].
  exact (proj2 (stage_to_redshift_incremental_without_keys string sample_strftime
                  sample_session "dbo.orders" "stage.orders" true None
                  (String TAB EmptyString) false None None None eq_refl) _ []).
Defined.

Lemma stage_to_redshift_continues_on_empty_schema_witness :
  exists t',
    fst (sample_stage (sample_world [] false 0 0 []) false None)
    = ([sql_fetch_sql_all (schema_sql "orders" "dbo"); pg_table_exists "stage.orders"]
         ++ sql_fetch_sql_all "select count(1) from dbo.orders" :: t')%list.
Proof.
  exact (proj2 (stage_to_redshift_continues_on_empty_schema string sample_strftime
                  sample_session "dbo.orders" "stage.orders" false true None
                  (String TAB EmptyString) false None None None "dbo" "orders" []
                  false (sample_world [] false 0 0 []) []
                  eq_refl eq_refl eq_refl eq_refl)).
Defined.

(** ** Conversion of integers to floats

    [float(n)] is finite, with the sign of [n], for every non-zero integer
    below 2^1000 in absolute value; in particular the count check never
    overflows and never divides by zero on 64-bit counts. *)

Lemma digits2_pos_bounds (p : positive) :
  2 ^ (Zpos (digits2_pos p) - 1) <= Zpos p < 2 ^ Zpos (digits2_pos p).
Proof.
  induction p as [p IH|p IH|]; cbn [digits2_pos].
  - rewrite Pos2Z.inj_succ, (Pos2Z.inj_xI p).
    replace (Z.succ (Zpos (digits2_pos p)) - 1) with (Z.succ (Zpos (digits2_pos p) - 1)) by lia.
    rewrite !Z.pow_succ_r by lia. lia.
  - rewrite Pos2Z.inj_succ, (Pos2Z.inj_xO p).
    replace (Z.succ (Zpos (digits2_pos p)) - 1) with (Z.succ (Zpos (digits2_pos p) - 1)) by lia.
    rewrite !Z.pow_succ_r by lia. lia.
  - cbn. lia.
Qed.

Lemma digits2_pos_unique (p : positive) (k : Z) :
  2 ^ (k - 1) <= Zpos p < 2 ^ k -> Zpos (digits2_pos p) = k.
Proof.
  intros [Hlo Hhi]. pose proof (digits2_pos_bounds p) as [Dlo Dhi].
  set (d := Zpos (digits2_pos p)) in *.
  assert (0 < k).
  { destruct (Z.ltb_spec 0 k); [assumption|].
    exfalso. destruct (Z.eq_dec k 0) as [->|]; [cbn in Hhi; lia|].
    rewrite Z.pow_neg_r in Hhi by lia. lia. }
  destruct (Z.lt_trichotomy d k) as [Hlt|[Heq|Hgt]]; [|assumption|]; exfalso.
  - assert (2 ^ d <= 2 ^ (k - 1)) by (apply Z.pow_le_mono_r; lia). lia.
  - assert (2 ^ k <= 2 ^ (d - 1)) by (apply Z.pow_le_mono_r; lia). lia.
Qed.

Lemma shr_1_m (mrs : shr_record) :
  0 <= shr_m mrs -> shr_m (shr_1 mrs) = shr_m mrs / 2.
Proof.
  destruct mrs as [m r s]. cbn [shr_m]. intros Hm.
  destruct m as [|[p|p|]|p]; cbn [shr_1 shr_m]; try lia; try reflexivity.
  - rewrite (Pos2Z.inj_xI p). apply Z.div_unique with 1; lia.
  - rewrite (Pos2Z.inj_xO p). apply Z.div_unique with 0; lia.
Qed.

Lemma iter_pos_shr_1_m (n : positive) (mrs : shr_record) :
  0 <= shr_m mrs ->
  shr_m (SpecFloat.iter_pos shr_1 n mrs) = shr_m mrs / 2 ^ Zpos n.
Proof.
  revert mrs. induction n as [n IH|n IH|]; intros mrs Hm; cbn [SpecFloat.iter_pos].
  - assert (H1 : 0 <= shr_m (shr_1 mrs)).
    { rewrite shr_1_m by assumption. apply Z.div_pos; lia. }
    assert (H2 : 0 <= shr_m (SpecFloat.iter_pos shr_1 n (shr_1 mrs))).
    { rewrite IH by assumption. apply Z.div_pos; [lia|]. apply Z.pow_pos_nonneg; lia. }
    rewrite IH, IH, shr_1_m by assumption.
    assert (0 < 2 ^ Zpos n) by (apply Z.pow_pos_nonneg; lia).
    rewrite !Z.div_div by lia.
    f_equal. rewrite (Pos2Z.inj_xI n).
    replace (2 * Zpos n + 1) with (Z.succ (Zpos n + Zpos n)) by lia.
    rewrite Z.pow_succ_r, Z.pow_add_r by lia. lia.
  - assert (H2 : 0 <= shr_m (SpecFloat.iter_pos shr_1 n mrs)).
    { rewrite IH by assumption. apply Z.div_pos; [lia|]. apply Z.pow_pos_nonneg; lia. }
    rewrite IH, IH by assumption.
    assert (0 < 2 ^ Zpos n) by (apply Z.pow_pos_nonneg; lia).
    rewrite !Z.div_div by lia.
    f_equal. rewrite (Pos2Z.inj_xO n).
    replace (2 * Zpos n) with (Zpos n + Zpos n) by lia.
    rewrite Z.pow_add_r by lia. lia.
  - rewrite shr_1_m by assumption. reflexivity.
Qed.

Lemma shr_m_record_of_loc (m : Z) (l : location) :
  shr_m (shr_record_of_loc m l) = m.
Proof. destruct l as [|[]]; reflexivity. Qed.

Lemma shr_fexp_m (p : positive) (e : Z) (l : location) :
  let n := Z.max 0 (fexp prec emax (Zpos (digits2_pos p) + e) - e) in
  shr_m (fst (shr_fexp prec emax (Zpos p) e l)) = Zpos p / 2 ^ n
  /\ snd (shr_fexp prec emax (Zpos p) e l) = e + n.
Proof.
  unfold shr_fexp, shr. cbn [Zdigits2].
  destruct (fexp prec emax (Zpos (digits2_pos p) + e) - e) as [|q|q];
    cbn [fst snd Z.max].
  - rewrite shr_m_record_of_loc, Z.div_1_r. split; [reflexivity|lia].
  - rewrite iter_pos_shr_1_m by (rewrite shr_m_record_of_loc; lia).
    rewrite shr_m_record_of_loc. split; reflexivity.
  - rewrite shr_m_record_of_loc. replace (Z.max 0 (Z.neg q)) with 0 by lia.
    rewrite Z.div_1_r. split; [reflexivity|lia].
Qed.

Lemma round_nearest_even_bounds (m : Z) (l : location) :
  m <= round_nearest_even m l <= m + 1.
Proof.
  unfold round_nearest_even. destruct l as [|[]]; try lia.
  destruct (Z.even m); lia.
Qed.

Lemma pow2_le_inv (a b : Z) : 0 <= b -> 2 ^ a <= 2 ^ b -> a <= b.
Proof. intros Hb H. apply (Z.pow_le_mono_r_iff 2); lia. Qed.

Lemma pow2_lt_inv (a b : Z) : 0 <= b -> 2 ^ a < 2 ^ b -> a < b.
Proof. intros Hb H. apply (Z.pow_lt_mono_r_iff 2); lia. Qed.

(** Rounding a mantissa of at least 53 digits whose exponent keeps it in the
    normal range gives a finite float of the same sign. *)
Lemma binary_round_aux_finite (sx : bool) (p : positive) (e : Z) (l : location) :
  53 <= Zpos (digits2_pos p) ->
  -1000 <= e ->
  Zpos (digits2_pos p) + e <= 1023 ->
  exists m e', binary_round_aux prec emax sx (Zpos p) e l = S754_finite sx m e'.
Proof.
  intros Hd He Hde. unfold binary_round_aux.
  pose proof (digits2_pos_bounds p) as [Plo Phi].
  pose proof (shr_fexp_m p e l) as [Hm1 He1]. cbv zeta in Hm1, He1.
  destruct (shr_fexp prec emax (Zpos p) e l) as [mrs' e1]. cbn [fst snd] in Hm1, He1.
  set (d := Zpos (digits2_pos p)) in *.
  assert (Hn1 : Z.max 0 (fexp prec emax (d + e) - e) = d - 53).
  { unfold fexp, emin, prec, emax. lia. }
  rewrite Hn1 in Hm1, He1.
  assert (H52 : 2 ^ 52 <= shr_m mrs' < 2 ^ 53).
  { rewrite Hm1. assert (0 < 2 ^ (d - 53)) by (apply Z.pow_pos_nonneg; lia).
    split.
    - apply Z.div_le_lower_bound; [lia|].
      rewrite <- Z.pow_add_r by lia. replace (d - 53 + 52) with (d - 1) by lia.
      exact Plo.
    - apply Z.div_lt_upper_bound; [lia|].
      rewrite <- Z.pow_add_r by lia. replace (d - 53 + 53) with d by lia.
      exact Phi. }
  pose proof (round_nearest_even_bounds (shr_m mrs') (loc_of_shr_record mrs')) as Hr.
  destruct (round_nearest_even (shr_m mrs') (loc_of_shr_record mrs')) as [|r|r];
    [exfalso; lia | | exfalso; lia].
  pose proof (digits2_pos_bounds r) as [Rlo Rhi].
  pose proof (shr_fexp_m r e1 loc_Exact) as [Hm2 He2]. cbv zeta in Hm2, He2.
  destruct (shr_fexp prec emax (Zpos r) e1 loc_Exact) as [mrs'' e2].
  cbn [fst snd] in Hm2, He2.
  set (d2 := Zpos (digits2_pos r)) in *.
  assert (Hd2 : 53 <= d2 <= 54).
  { split.
    - assert (2 ^ 52 < 2 ^ d2) by lia.
      assert (52 < d2) by (apply pow2_lt_inv; [unfold d2|]; lia). lia.
    - assert (2 ^ (d2 - 1) <= 2 ^ 53) by lia.
      assert (d2 - 1 <= 53) by (apply pow2_le_inv; lia). lia. }
  assert (Hn2 : Z.max 0 (fexp prec emax (d2 + e1) - e1) = d2 - 53).
  { unfold fexp, emin, prec, emax. lia. }
  rewrite Hn2 in Hm2, He2.
  assert (Hpos : 0 < shr_m mrs'').
  { rewrite Hm2. apply Z.div_str_pos. split; [apply Z.pow_pos_nonneg; lia|].
    apply Z.le_trans with (2 ^ (d2 - 1)); [|exact Rlo].
    apply Z.pow_le_mono_r; lia. }
  destruct (shr_m mrs'') as [|m|m]; [exfalso; lia | | exfalso; lia].
  assert (Hle : (e2 <=? emax - prec) = true).
  { apply Z.leb_le. unfold emax, prec. lia. }
  rewrite Hle. eauto.
Qed.

Lemma digits2_pos_iter_xO (p n : positive) :
  Zpos (digits2_pos (Pos.iter xO p n)) = Zpos (digits2_pos p) + Zpos n.
Proof.
  induction n as [|n IH] using Pos.peano_ind.
  - cbn [Pos.iter digits2_pos]. lia.
  - rewrite Pos.iter_succ. cbn [digits2_pos]. lia.
Qed.

Lemma binary_round_finite (sx : bool) (p : positive) :
  Zpos p < 2 ^ 1000 ->
  exists m e, binary_round prec emax sx p 0 = S754_finite sx m e.
Proof.
  intros Hp. unfold binary_round, shl_align.
  pose proof (digits2_pos_bounds p) as [Plo Phi].
  set (d := Zpos (digits2_pos p)) in *.
  assert (Hd : 0 < d <= 1000).
  { split; [unfold d; lia|].
    assert (2 ^ (d - 1) < 2 ^ 1000) by lia.
    assert (d - 1 < 1000) by (apply pow2_lt_inv; lia). lia. }
  assert (Hf : fexp prec emax (d + 0) = d - 53).
  { unfold fexp, emin, prec, emax. lia. }
  rewrite Hf.
  destruct (d - 53 - 0) as [|q|q] eqn:Hq.
  - apply binary_round_aux_finite; fold d; lia.
  - apply binary_round_aux_finite; fold d; lia.
  - apply binary_round_aux_finite; rewrite ?digits2_pos_iter_xO; fold d; lia.
Qed.

Lemma float_of_int_finite (n : Z) :
  n <> 0 -> Z.abs n < 2 ^ 1000 ->
  exists m e, binary_normalize prec emax n 0 false = S754_finite (n <? 0) m e.
Proof.
  intros Hn Hb. destruct n as [|p|p]; [contradiction| |]; cbn [binary_normalize].
  - apply binary_round_finite. exact Hb.
  - apply binary_round_finite. exact Hb.
Qed.


(** ** The count check *)

Lemma float_of_int_ok (n : Z) :
  Z.abs n < 2 ^ 1000 -> float_of_int n = Ok (nearest_float n).
Proof.
  intros Hb. unfold float_of_int, nearest_float.
  destruct (Z.eq_dec n 0) as [->|Hn]; [reflexivity|].
  destruct (float_of_int_finite n Hn Hb) as (m & e & ->). reflexivity.
Qed.

Lemma truediv_nonzero (x : float) (n : Z) :
  n <> 0 -> Z.abs n < 2 ^ 1000 ->
  truediv x (nearest_float n) = Ok (SFdiv prec emax x (nearest_float n)).
Proof.
  intros Hn Hb. unfold nearest_float.
  destruct (float_of_int_finite n Hn Hb) as (m & e & ->). reflexivity.
Qed.

Lemma count_check_relative_diff (src_cnt tgt_cnt : Z) (pct_threshold : float) :
  - 2 ^ 63 <= src_cnt < 2 ^ 63 -> - 2 ^ 63 <= tgt_cnt < 2 ^ 63 ->
  count_check src_cnt tgt_cnt pct_threshold
  = if float_gt (relative_diff src_cnt tgt_cnt) pct_threshold
    then Raise (Exception_failed_count_check (src_cnt - tgt_cnt)
                  (relative_diff src_cnt tgt_cnt))
    else Ok (src_cnt - tgt_cnt, relative_diff src_cnt tgt_cnt).
Proof.
  intros Hs Ht. unfold count_check, relative_diff.
  assert (H63 : 2 ^ 63 < 2 ^ 1000) by (apply Z.pow_lt_mono_r; lia).
  assert (H64 : 2 * 2 ^ 63 < 2 ^ 1000).
  { change (2 * 2 ^ 63) with (2 ^ 64). apply Z.pow_lt_mono_r; lia. }
  rewrite float_of_int_ok by lia. cbn [rbind].
  replace (if negb (src_cnt =? 0) then src_cnt else 1)
    with (if src_cnt =? 0 then 1 else src_cnt)
    by (destruct (src_cnt =? 0); reflexivity).
  assert (Hden : (if src_cnt =? 0 then 1 else src_cnt) <> 0
                 /\ Z.abs (if src_cnt =? 0 then 1 else src_cnt) < 2 ^ 1000).
  { destruct (Z.eqb_spec src_cnt 0); lia. }
  destruct Hden as [Hd0 Hdb].
  rewrite float_of_int_ok by exact Hdb. cbn [rbind].
  rewrite truediv_nonzero by assumption. cbn [rbind].
  reflexivity.
Qed.

Lemma check_tgt_count_run (src_cnt : Z) (tgt_table : string) (pct_threshold : float)
    (tgt_cnt : Z) (w : world) (t : trace) :
  w_tgt_cnt w t ("select count(1) from " +:+ tgt_table) = Ok tgt_cnt ->
  check_tgt_count src_cnt tgt_table pct_threshold w t
  = ((t ++ [pg_fetch_sql_all ("select count(1) from " +:+ tgt_table)])%list,
     count_check src_cnt tgt_cnt pct_threshold).
Proof.
  intros Hcnt. unfold check_tgt_count, bind, ask, lift. rewrite Hcnt. reflexivity.
Qed.

(** The default threshold is the double nearest to 1/100. *)
Lemma pct_threshold_default_nearest :
  SFdiv prec emax (nearest_float 1) (nearest_float 100) = pct_threshold_default.
Proof. reflexivity. Qed.

(** The comparison is made on doubles.  With these counts, which are in the
    64-bit range, the divisor is rounded by the conversion and the computed
    relative difference is the threshold itself. *)
Example relative_diff_rounds :
  relative_diff (10 ^ 17 - 1) (10 ^ 17 - 1 - 10 ^ 15) = pct_threshold_default.
Proof. reflexivity. Qed.

(** C5.  For 64-bit counts, [check_tgt_count] computes the relative
    difference [(src_cnt - tgt_cnt) / src_cnt] (denominator 1 when
    [src_cnt] is 0) and raises exactly when it is strictly greater than the
    threshold.  With the default threshold, 1000 against 990 gives a
    relative difference equal to the threshold and passes; 1000 against 989
    fails. *)
Theorem check_tgt_count_threshold (src_cnt tgt_cnt : Z) (tgt_table : string)
    (pct_threshold : float) (w : world) (t : trace) :
  - 2 ^ 63 <= src_cnt < 2 ^ 63 -> - 2 ^ 63 <= tgt_cnt < 2 ^ 63 ->
  w_tgt_cnt w t ("select count(1) from " +:+ tgt_table) = Ok tgt_cnt ->
  snd (check_tgt_count src_cnt tgt_table pct_threshold w t)
  = (if float_gt (relative_diff src_cnt tgt_cnt) pct_threshold
     then Raise (Exception_failed_count_check (src_cnt - tgt_cnt)
                   (relative_diff src_cnt tgt_cnt))
     else Ok (src_cnt - tgt_cnt, relative_diff src_cnt tgt_cnt))
  /\ relative_diff 1000 990 = pct_threshold_default
  /\ float_gt (relative_diff 1000 990) pct_threshold_default = false
  /\ float_gt (relative_diff 1000 989) pct_threshold_default = true.
Proof.
  intros Hs Ht Hcnt. split; [|split; [|split]]; try reflexivity.
  rewrite (check_tgt_count_run _ _ _ tgt_cnt) by exact Hcnt. cbn [snd].
  now apply count_check_relative_diff.
Qed.

Lemma check_tgt_count_threshold_witness :
  snd (check_tgt_count 1000 "stage.orders" pct_threshold_default
         (sample_world [] true 1000 990 []) [])
  = Ok (10, pct_threshold_default)
  /\ snd (check_tgt_count 1000 "stage.orders" pct_threshold_default
            (sample_world [] true 1000 989 []) [])
     = Raise (Exception_failed_count_check 11
                (S754_finite false 6341068275337658 (-59))).
Proof.
  split.
  - exact (proj1 (check_tgt_count_threshold 1000 990 "stage.orders"
                    pct_threshold_default (sample_world [] true 1000 990 []) []
                    ltac:(cbn; lia) ltac:(cbn; lia) eq_refl)).
  - exact (proj1 (check_tgt_count_threshold 1000 989 "stage.orders"
                    pct_threshold_default (sample_world [] true 1000 989 []) []
                    ltac:(cbn; lia) ltac:(cbn; lia) eq_refl)).
Defined.

(** C4, as the code has it.  With a source count of 0 the denominator is 1;
    a target count of 0 gives the relative difference 0.0 and a target
    count of 1 gives -1.0, and the check passes in both cases: only a
    relative difference above the threshold raises. *)
Theorem check_tgt_count_zero_source (tgt_table : string) (tgt_cnt : Z)
    (w : world) (t : trace) :
  w_tgt_cnt w t ("select count(1) from " +:+ tgt_table) = Ok tgt_cnt ->
  tgt_cnt = 0 \/ tgt_cnt = 1 ->
  snd (check_tgt_count 0 tgt_table pct_threshold_default w t)
  = Ok (- tgt_cnt,
        if tgt_cnt =? 0 then S754_zero false
        else S754_finite true 4503599627370496 (-52)).
Proof.
  intros Hcnt Hcases.
  rewrite (check_tgt_count_run _ _ _ tgt_cnt) by exact Hcnt. cbn [snd].
  destruct Hcases as [-> | ->]; reflexivity.
Qed.

Lemma check_tgt_count_zero_source_witness :
  snd (check_tgt_count 0 "stage.orders" pct_threshold_default
         (sample_world [] true 0 0 []) [])
  = Ok (0, S754_zero false).
Proof.
  exact (check_tgt_count_zero_source "stage.orders" 0 (sample_world [] true 0 0 []) []
           eq_refl (or_introl eq_refl)).
Defined.

(** C4 as stated fails on the code: a source count of 0 against a target
    count of 1 does not fail the count check. *)
Lemma zero_source_one_target_passes :
  let r := snd (check_tgt_count 0 "stage.orders" pct_threshold_default
                  (sample_world [] true 0 1 []) []) in
  is_ok r = true
  /\ r = Ok (-1, S754_finite true 4503599627370496 (-52))
  /\ ~ (exists e, r = Raise e).
Proof.
  cbv zeta. split; [reflexivity|]. split; [reflexivity|].
  intros [e He]. discriminate He.
Qed.

(** ** Instances on concrete inputs *)

Lemma normalize_scalar_witness :
  normalize (VStr ("a" +:+ String TAB "b")) = CStr "a b"
  /\ String.get 1 (clean ("a" +:+ String TAB "b")) = Some SPACE.
Proof.
  split.
  - exact (proj1 (normalize_scalar (VStr ("a" +:+ String TAB "b")))).
  - exact (proj2 (proj2 (normalize_scalar (VStr ("a" +:+ String TAB "b"))))
             1%nat TAB eq_refl).
Defined.

Lemma filter_str_any_newer_witness :
  filter_str string sample_strftime sample_session (Some ["updated_at"; "created_at"])
  = "where updated_at > '2019-06-01 00:00' or created_at > '2019-06-01 00:00'"
  /\ filter_str string sample_strftime sample_session None = EmptyString.
Proof.
  split.
  - exact (proj1 (proj1 (filter_str_any_newer string sample_strftime sample_session
                           (Some ["updated_at"; "created_at"]))
                    "2019-06-01 00:00" "updated_at" ["created_at"] eq_refl eq_refl)).
  - exact (proj2 (filter_str_any_newer string sample_strftime sample_session None)
             (or_intror (or_introl eq_refl))).
Defined.

Lemma null_sentinel_witness :
  exists sql,
    occurs_in "NULL AS 'None'" sql
    /\ s3_to_redshift string sample_session "stage.orders" "s3://b/k/output.tsv"
         false false true false 0 None (String TAB EmptyString) false
         (sample_world [] true 0 0 []) []
       = (do pg_conn ;; do pg_batchOpen ;; do (pg_exec_sql sql) ;;
          grant_std_access "stage.orders" ;; do pg_batchCommit)%M
           (sample_world [] true 0 0 []) [].
Proof.
  destruct (null_sentinel string sample_session "stage.orders" "s3://b/k/output.tsv"
              false false true false 0 None (String TAB EmptyString) false)
    as (_ & _ & sql & _ & Hocc & Hrun).
  exists sql. split; [exact Hocc|].
  exact (Hrun (sample_world [] true 0 0 []) [] eq_refl).
Defined.

(** * Further properties of the code *)

(** ** More on the type translation *)

Lemma lower_append (a b : string) : lower (a +:+ b) = lower a +:+ lower b.
Proof.
  induction a as [|c a IH]; [reflexivity|].
  change (String (lower_ascii c) (lower (a +:+ b))
          = String (lower_ascii c) (lower a +:+ lower b)).
  now rewrite IH.
Qed.

(** X1.  The column name emitted is never a reserved word: a name whose
    lower-case form is reserved gets the prefix [v_] and keeps its case,
    every other name is unchanged. *)
Theorem column_name_never_reserved (f : field) :
  (lower (column_name f) ∉ rs_reserved_names)
  /\ (lower (field0 f) ∈ rs_reserved_names -> column_name f = "v_" +:+ field0 f)
  /\ (lower (field0 f) ∉ rs_reserved_names -> column_name f = field0 f).
Proof.
  unfold column_name, py_in.
  destruct (bool_decide_reflect (lower (field0 f) ∈ rs_reserved_names)) as [Hin|Hnin];
    cbn [negb].
  - split; [|split; [reflexivity|contradiction]].
    rewrite lower_append.
    unfold rs_reserved_names in *. apply list_elem_of_singleton in Hin. rewrite Hin.
    intros H. apply list_elem_of_singleton in H. discriminate H.
  - split; [exact Hnin|]. split; [contradiction|reflexivity].
Qed.

Lemma column_name_never_reserved_witness :
  column_name (Field "Partition" "int" None None None) = "v_Partition"
  /\ column_name (Field "id" "int" None None None) = "id".
Proof.
  split.
  - apply (proj1 (proj2 (column_name_never_reserved
                           (Field "Partition" "int" None None None)))).
    vm_compute. apply list_elem_of_singleton. reflexivity.
  - apply (proj2 (proj2 (column_name_never_reserved
                           (Field "id" "int" None None None)))).
    vm_compute. intros H. apply list_elem_of_singleton in H. discriminate H.
Defined.

Lemma size_ok_or_type_error (f : field) :
  (exists sz, size f = Ok sz) \/ (size f = Raise TypeError /\ field1 f <> "timestamp"
                                  /\ field2 f = None).
Proof.
  unfold size. destruct (String.eqb_spec (field1 f) "timestamp") as [E|E];
    [left; eauto|].
  destruct (field2 f) as [n|]; cbn [py_int rbind].
  - left. destruct (n >? 65535); [eauto|]. destruct (n <? 0); eauto.
  - right. auto.
Qed.

Lemma data_type_raises (f : field) (e : exn) :
  data_type f = Raise e <-> e = TypeError /\ untypable f.
Proof.
  unfold untypable. split.
  - unfold data_type, py_in.
    repeat match goal with
           | |- context [bool_decide ?P] =>
               lazymatch P with
               | _ ∈ _ => destruct (bool_decide_reflect P)
               end
           | |- context [String.eqb ?a ?b] =>
               lazymatch b with
               | "uuid" => destruct (String.eqb a b)
               | "uniqueidentifier" => destruct (String.eqb a b)
               end
           end; try discriminate.
    destruct (size_ok_or_type_error f) as [[sz ->]|(-> & Hts & Hnone)];
      cbn [rbind]; [discriminate|].
    intros [= <-]. auto.
  - intros (-> & Hin & Hts & Hnone). destruct f as [name ty len p s].
    cbn [field1 field2] in *. subst len.
    apply elem_of_rs_char_types in Hin.
    destruct Hin as [H|[H|[H|[H|[H|[H|[H|[H|H]]]]]]]]; subst ty;
      first [contradiction | reflexivity].
Qed.

(** X2.  The translation of a column fails only on a character type other
    than ["timestamp"] whose declared length is absent, and then with
    [TypeError]; every other column gets a type. *)
Theorem data_type_raises_iff (f : field) (e : exn) :
  data_type f = Raise e <-> e = TypeError /\ untypable f.
Proof. apply data_type_raises. Qed.

Lemma data_type_raises_iff_witness :
  data_type (Field "c" "bpchar" None None None) = Raise TypeError.
Proof.
  apply (proj2 (data_type_raises_iff (Field "c" "bpchar" None None None) TypeError)).
  split; [reflexivity|]. split; [|split; [discriminate|reflexivity]].
  unfold rs_char_types. cbn [field1]. rewrite !elem_of_cons. tauto.
Defined.

(** X3.  Every date and time type, plain ["date"] included, becomes
    [timestamp]; the entry ["date"] of the pass-through types is never
    reached, and every other pass-through type keeps its name. *)
Theorem data_type_dates_and_passthrough name ty len p s :
  (ty ∈ rs_date_types -> data_type (Field name ty len p s) = Ok "timestamp")
  /\ (ty ∈ rs_other_types ->
      data_type (Field name ty len p s)
      = Ok (if String.eqb ty "date" then "timestamp" else ty)).
Proof.
  split; intros Hin.
  - unfold rs_date_types in Hin. rewrite !elem_of_cons, elem_of_nil in Hin.
    destruct Hin as [H|[H|[H|[H|[H|[H|[]]]]]]]; subst ty; reflexivity.
  - unfold rs_other_types in Hin. rewrite !elem_of_cons, elem_of_nil in Hin.
    destruct Hin as [H|[H|[H|[H|[H|[H|[H|[H|[H|[]]]]]]]]]]; subst ty; reflexivity.
Qed.

Lemma data_type_dates_and_passthrough_witness :
  data_type (Field "d" "date" None None None) = Ok "timestamp"
  /\ data_type (Field "x" "float8" None (Some 53) None) = Ok "float8".
Proof.
  split.
  - apply (proj2 (data_type_dates_and_passthrough "d" "date" None None None)).
    unfold rs_other_types. rewrite !elem_of_cons. tauto.
  - apply (proj2 (data_type_dates_and_passthrough "x" "float8" None (Some 53) None)).
    unfold rs_other_types. rewrite !elem_of_cons. tauto.
Defined.

Lemma create_row_raises (f : field) (e : exn) :
  create_row f = Raise e <-> data_type f = Raise e.
Proof.
  unfold create_row. destruct (data_type f) as [dt|e']; cbn [rbind];
    split; intros H; (discriminate || exact H).
Qed.

Lemma create_rows_raises (schema : list field) (e : exn) :
  create_rows schema = Raise e <-> e = TypeError /\ Exists untypable schema.
Proof.
  induction schema as [|f rest IH]; cbn [create_rows].
  - split; [discriminate|]. intros [_ H]. inversion H.
  - destruct (create_row f) as [row|e'] eqn:Hrow; cbn [rbind].
    + assert (Hf : ~ untypable f).
      { intros Hu.
        assert (Hr : create_row f = Raise TypeError)
          by (apply create_row_raises, data_type_raises; auto).
        congruence. }
      destruct (create_rows rest) as [rows|e''] eqn:Hrest; cbn [rbind].
      * split; [discriminate|]. intros [-> H].
        apply Exists_cons in H. destruct H as [H|H]; [contradiction|].
        assert (Hr : Ok rows = @Raise string TypeError) by (apply IH; auto).
        discriminate Hr.
      * split.
        -- intros [= <-]. destruct (proj1 IH eq_refl) as [-> H].
           split; [reflexivity|]. now apply Exists_cons_tl.
        -- intros [-> H]. apply Exists_cons in H. destruct H as [H|H];
             [contradiction|].
           now apply IH.
    + apply create_row_raises, data_type_raises in Hrow. destruct Hrow as [-> Hu].
      split.
      * intros [= <-]. split; [reflexivity|]. now apply Exists_cons_hd.
      * intros [-> _]. reflexivity.
Qed.

(** X4.  The column list of the [create table] statement is built unless
    some column is untypable, and then building it raises [TypeError]. *)
Theorem create_rows_raises_iff (schema : list field) (e : exn) :
  create_rows schema = Raise e <-> e = TypeError /\ Exists untypable schema.
Proof. apply create_rows_raises. Qed.

Lemma create_rows_raises_iff_witness :
  create_rows [Field "id" "int" None (Some 10) (Some 0);
               Field "notes" "text" None None None] = Raise TypeError.
Proof.
  apply (proj2 (create_rows_raises_iff _ TypeError)).
  split; [reflexivity|]. apply Exists_cons_tl, Exists_cons_hd.
  split; [|split; [discriminate|reflexivity]].
  unfold rs_char_types. cbn [field1]. rewrite !elem_of_cons. tauto.
Defined.

(** ** Runs of [clone_staging_table] *)

Section CloneRuns.

Variables (src_table tgt_table : string) (select_fields : option (list select_field)).
Variables (incremental : bool) (w : world) (t : trace).
Variables (schema_name table_name : string) (cols schema : list field).
Variable tgt_exists : bool.

Hypothesis Hname : schema_and_table src_table = Ok (schema_name, table_name).
Hypothesis Hcols : w_columns w t (schema_sql table_name schema_name) = Ok cols.
Hypothesis Hsel : get_fields select_fields cols = Ok schema.
Hypothesis Hexists :
  w_tgt_exists w (t ++ [sql_fetch_sql_all (schema_sql table_name schema_name)])%list
               tgt_table = Ok tgt_exists.

(** The trace once the catalog and the target have been looked at. *)
Let t_reads : trace :=
  ((t ++ [sql_fetch_sql_all (schema_sql table_name schema_name)])
     ++ [pg_table_exists tgt_table])%list.

Lemma clone_staging_table_after_reads :
  clone_staging_table src_table tgt_table select_fields incremental w t
  = (if (length schema =? 0)%nat then ret (None, None)
     else if incremental && tgt_exists then ret (Some src_table, Some tgt_table)
     else
       rows <- lift (create_rows schema) ;;
       try_except
         (do (pg_exec_sql (clone_query tgt_table rows)) ;; do pg_batchCommit)
         (fun _ => do pg_batchCommit) ;;
       ret (Some src_table, Some tgt_table))%M w t_reads.
Proof.
  unfold clone_staging_table, get_source_table_schema, bind, lift, ask.
  rewrite Hname. cbn [fst snd]. rewrite Hcols, Hsel, Hexists. reflexivity.
Qed.

(** X5.  In incremental mode an existing target is trusted as it is: with a
    non-empty schema, [clone_staging_table] makes its two reads and nothing
    else (no statement is sent to the warehouse, no column is translated)
    and returns both names. *)
Theorem clone_staging_table_incremental_existing :
  schema <> [] -> incremental = true -> tgt_exists = true ->
  clone_staging_table src_table tgt_table select_fields incremental w t
  = (t_reads, Ok (Some src_table, Some tgt_table)).
Proof.
  intros Hne Hinc Hex. rewrite clone_staging_table_after_reads.
  rewrite Hinc, Hex. destruct schema; [contradiction|]. reflexivity.
Qed.

(** X6.  A failure of the [drop]/[create] statement is swallowed: when
    [exec_sql] raises, [clone_staging_table] commits and returns both names
    as if the table had been created. *)
Theorem clone_staging_table_swallows_create_failure rows e :
  schema <> [] -> incremental && tgt_exists = false ->
  create_rows schema = Ok rows ->
  w_raises w t_reads (pg_exec_sql (clone_query tgt_table rows)) = Some e ->
  w_raises w (t_reads ++ [pg_exec_sql (clone_query tgt_table rows)])%list
           pg_batchCommit = None ->
  clone_staging_table src_table tgt_table select_fields incremental w t
  = ((t_reads ++ [pg_exec_sql (clone_query tgt_table rows)]) ++ [pg_batchCommit],
     Ok (Some src_table, Some tgt_table))%list.
Proof.
  intros Hne Hinc Hrows Hexec Hcommit. rewrite clone_staging_table_after_reads.
  destruct schema; [contradiction|]. cbn [length Nat.eqb]. rewrite Hinc, Hrows.
  unfold bind, lift, try_except, do, ask, ret. rewrite Hexec, Hcommit. reflexivity.
Qed.

(** X7.  When a column is untypable and the table has to be created,
    [clone_staging_table] raises [TypeError] after its two reads: nothing
    is dropped and nothing is created. *)
Theorem clone_staging_table_untypable :
  incremental && tgt_exists = false -> Exists untypable schema ->
  clone_staging_table src_table tgt_table select_fields incremental w t
  = (t_reads, Raise TypeError).
Proof.
  intros Hinc Hbad. rewrite clone_staging_table_after_reads.
  assert (Hrows : create_rows schema = Raise TypeError)
    by (apply create_rows_raises; auto).
  destruct schema; [inversion Hbad|]. cbn [length Nat.eqb]. rewrite Hinc, Hrows.
  reflexivity.
Qed.

End CloneRuns.

Lemma clone_staging_table_incremental_existing_witness :
  clone_staging_table "dbo.orders" "stage.orders" None true
    (sample_world [Field "id" "int" None (Some 10) (Some 0)] true 1 1 []) []
  = ([sql_fetch_sql_all (schema_sql "orders" "dbo"); pg_table_exists "stage.orders"],
     Ok (Some "dbo.orders", Some "stage.orders")).
Proof.
  exact (clone_staging_table_incremental_existing "dbo.orders" "stage.orders" None true
           (sample_world [Field "id" "int" None (Some 10) (Some 0)] true 1 1 []) []
           "dbo" "orders" [Field "id" "int" None (Some 10) (Some 0)]
           [Field "id" "int" None (Some 10) (Some 0)] true
           eq_refl eq_refl eq_refl eq_refl ltac:(discriminate) eq_refl eq_refl).
Defined.

Lemma clone_staging_table_swallows_create_failure_witness :
  snd (clone_staging_table "dbo.orders" "stage.orders" None false
         (exec_failing_world [Field "id" "int" None (Some 10) (Some 0)] false) [])
  = Ok (Some "dbo.orders", Some "stage.orders").
Proof.
  exact (f_equal snd
           (clone_staging_table_swallows_create_failure "dbo.orders" "stage.orders"
              None false
              (exec_failing_world [Field "id" "int" None (Some 10) (Some 0)] false) []
              "dbo" "orders" [Field "id" "int" None (Some 10) (Some 0)]
              [Field "id" "int" None (Some 10) (Some 0)] false
              eq_refl eq_refl eq_refl eq_refl _ (RemoteError "exec_sql")
              ltac:(discriminate) eq_refl eq_refl eq_refl eq_refl)).
Defined.

Lemma clone_staging_table_untypable_witness :
  clone_staging_table "dbo.orders" "stage.orders" None false
    (sample_world [Field "notes" "text" None None None] false 1 1 []) []
  = ([sql_fetch_sql_all (schema_sql "orders" "dbo"); pg_table_exists "stage.orders"],
     Raise TypeError).
Proof.
  refine (clone_staging_table_untypable "dbo.orders" "stage.orders" None false
            (sample_world [Field "notes" "text" None None None] false 1 1 []) []
            "dbo" "orders" [Field "notes" "text" None None None]
            [Field "notes" "text" None None None] false
            eq_refl eq_refl eq_refl eq_refl eq_refl _).
  apply Exists_cons_hd. split; [|split; [discriminate|reflexivity]].
  unfold rs_char_types. cbn [field1]. rewrite !elem_of_cons. tauto.
Defined.

(** ** Field selection *)

Lemma map_field_eta (schema : list field) :
  map (fun f => Field (field0 f) (field1 f) (field2 f) (field3 f) (field4 f)) schema
  = schema.
Proof.
  induction schema as [|[n ty l p s] rest IH]; [reflexivity|].
  cbn [map field0 field1 field2 field3 field4]. now rewrite IH.
Qed.

Lemma get_fields_loop_sublist (sel : list select_field) (schema fs : list field) :
  get_fields_loop sel schema = Ok fs ->
  sublist (map field_attrs fs) (map field_attrs schema).
Proof.
  revert fs. induction schema as [|f rest IH]; intros fs; cbn [get_fields_loop].
  - intros [= <-]. constructor.
  - destruct (get_field_values sel (lower (field0 f))) as [[|[s|a o] ?]|e];
      cbn [rbind]; try discriminate.
    + intros H. cbn [map]. apply sublist_cons. now apply IH.
    + destruct (get_fields_loop sel rest) as [r|e]; cbn [rbind]; [|discriminate].
      intros [= <-]. cbn [map]. apply sublist_skip. now apply IH.
    + destruct (get_fields_loop sel rest) as [r|e]; cbn [rbind]; [|discriminate].
      intros [= <-]. cbn [map]. apply sublist_skip. now apply IH.
Qed.

(** X8.  Field selection never reorders, duplicates or retypes columns:
    the columns it returns are, by type, length, precision and scale, a
    sublist of the source schema in source order; without a selection the
    schema is returned as it is. *)
Theorem get_fields_sublist (select_fields : option (list select_field))
    (schema fs : list field) :
  get_fields select_fields schema = Ok fs ->
  sublist (map field_attrs fs) (map field_attrs schema)
  /\ (truthy select_fields = false -> fs = schema).
Proof.
  unfold get_fields. destruct (truthy select_fields).
  - intros H. split; [|discriminate]. eapply get_fields_loop_sublist; eauto.
  - rewrite map_field_eta. intros [= <-]. split; [reflexivity|reflexivity].
Qed.

Lemma get_fields_sublist_witness :
  sublist (map field_attrs [Field "ID" "int" None (Some 10) (Some 0)])
          (map field_attrs [Field "a" "text" (Some 5) None None;
                            Field "id" "int" None (Some 10) (Some 0)]).
Proof.
  exact (proj1 (get_fields_sublist (Some [SelTuple "Id" "ID"])
                  [Field "a" "text" (Some 5) None None;
                   Field "id" "int" None (Some 10) (Some 0)]
                  [Field "ID" "int" None (Some 10) (Some 0)] eq_refl)).
Defined.

Lemma get_select_fields_loop_aligned (sel : list select_field) (schema fs : list field) :
  get_fields_loop sel schema = Ok fs ->
  exists names,
    get_select_fields_loop schema sel = Ok names
    /\ Forall2 (fun name f =>
                  exists f0, f0 ∈ schema /\ name = field0 f0
                             /\ field_attrs f = field_attrs f0)
               names fs.
Proof.
  revert fs. induction schema as [|f rest IH]; intros fs;
    cbn [get_fields_loop get_select_fields_loop].
  - intros [= <-]. exists []. split; [reflexivity|constructor].
  - assert (Hmono : forall names fs',
               Forall2 (fun name f1 =>
                          exists f0, f0 ∈ rest /\ name = field0 f0
                                     /\ field_attrs f1 = field_attrs f0) names fs' ->
               Forall2 (fun name f1 =>
                          exists f0, f0 ∈ f :: rest /\ name = field0 f0
                                     /\ field_attrs f1 = field_attrs f0) names fs').
    { intros names fs' H. eapply Forall2_impl; [exact H|].
      intros name f1 (f0 & Hin & Hn & Ha). exists f0. split; [|auto].
      now apply elem_of_cons; right. }
    destruct (get_field_values sel (lower (field0 f))) as [[|[s|a o] ?]|e];
      cbn [rbind]; try discriminate.
    + intros H. destruct (IH fs H) as (names & -> & HF).
      exists names. split; [reflexivity|]. now apply Hmono.
    + destruct (get_fields_loop sel rest) as [r|e]; cbn [rbind]; [|discriminate].
      intros [= <-]. destruct (IH r eq_refl) as (names & -> & HF).
      exists (field0 f :: names). split; [reflexivity|].
      constructor; [|now apply Hmono].
      exists f. split; [apply elem_of_cons; now left|]. split; reflexivity.
    + destruct (get_fields_loop sel rest) as [r|e]; cbn [rbind]; [|discriminate].
      intros [= <-]. destruct (IH r eq_refl) as (names & -> & HF).
      exists (field0 f :: names). split; [reflexivity|].
      constructor; [|now apply Hmono].
      exists f. split; [apply elem_of_cons; now left|]. split; reflexivity.
Qed.

(** X9.  Cloning and extraction select the same columns: when
    [get_fields] returns the columns of the target table,
    [get_select_fields] lists as many source names, and the i-th name is
    the source column from which the i-th target column takes its type. *)
Theorem get_select_fields_aligned (select_fields : option (list select_field))
    (schema fs : list field) :
  truthy select_fields = true ->
  get_fields select_fields schema = Ok fs ->
  exists names,
    get_select_fields schema (items select_fields) = Ok (join "," names)
    /\ Forall2 (fun name f =>
                  exists f0, f0 ∈ schema /\ name = field0 f0
                             /\ field_attrs f = field_attrs f0)
               names fs.
Proof.
  intros Htruthy. unfold get_fields, get_select_fields. rewrite Htruthy. intros H.
  destruct (get_select_fields_loop_aligned _ _ _ H) as (names & -> & HF).
  exists names. split; [reflexivity|exact HF].
Qed.

Lemma get_select_fields_aligned_witness :
  exists names,
    get_select_fields [Field "a" "text" (Some 5) None None;
                       Field "Id" "int" None (Some 10) (Some 0)]
                      [SelTuple "id" "order_id"] = Ok (join "," names)
    /\ length names = 1%nat.
Proof.
  destruct (get_select_fields_aligned (Some [SelTuple "id" "order_id"])
              [Field "a" "text" (Some 5) None None;
               Field "Id" "int" None (Some 10) (Some 0)]
              [Field "order_id" "int" None (Some 10) (Some 0)] eq_refl eq_refl)
    as (names & Hn & HF).
  exists names. split; [exact Hn|].
  apply Forall2_length in HF. exact HF.
Defined.







Lemma sel_matches_raises (i : select_field) (key : string) (e : exn) :
  sel_matches i key = Raise e -> e = IndexError.
Proof.
  destruct i as [[|c s]|a o]; cbn [sel_matches sel_head rbind].
  - destruct (String.eqb EmptyString key); [discriminate|]. now intros [= <-].
  - destruct (String.eqb (String c s) key); discriminate.
  - discriminate.
Qed.

Lemma get_field_values_empty_entry (sel : list select_field) (key : string) :
  SelStr EmptyString ∈ sel -> key <> EmptyString ->
  get_field_values sel key = Raise IndexError.
Proof.
  intros Hin Hkey. induction sel as [|i rest IH]; [inversion Hin|].
  cbn [get_field_values]. apply elem_of_cons in Hin.
  destruct (sel_matches i key) as [b|e] eqn:Hm; cbn [rbind].
  - destruct Hin as [<-|Hin].
    + cbn in Hm. destruct key; [contradiction|discriminate Hm].
    + now rewrite IH.
  - now rewrite (sel_matches_raises _ _ _ Hm).
Qed.

(** X11.  An empty string among the entries of [select_fields] makes the
    selection raise [IndexError] as soon as a column with a non-empty name
    is looked at. *)
Theorem get_fields_empty_entry (sel : list select_field) (f : field)
    (rest : list field) :
  SelStr EmptyString ∈ sel -> field0 f <> EmptyString ->
  get_fields (Some sel) (f :: rest) = Raise IndexError.
Proof.
  intros Hin Hname. unfold get_fields.
  destruct sel as [|i sel']; [inversion Hin|]. cbn [truthy items get_fields_loop].
  rewrite get_field_values_empty_entry; [reflexivity|exact Hin|].
  intros H. apply Hname. destruct (field0 f); [reflexivity|discriminate H].
Qed.

Lemma get_fields_empty_entry_witness :
  get_fields (Some [SelStr "id"; SelStr EmptyString])
             [Field "id" "int" None None None] = Raise IndexError.
Proof.
  apply get_fields_empty_entry.
  - rewrite !elem_of_cons. tauto.
  - discriminate.
Defined.

(** ** Schema and table name of the catalog query *)

Lemma split_length (c : ascii) (s : string) :
  length (split c s) = S (count_char c s).
Proof.
  induction s as [|a s IH]; [reflexivity|]. cbn [split count_char].
  destruct (Ascii.eqb a c).
  - cbn [length]. now rewrite IH.
  - destruct (split c s) as [|x xs]; [discriminate IH|]. cbn [length] in *. lia.
Qed.

Lemma has_char_count (c : ascii) (s : string) :
  has_char c s = negb (count_char c s =? 0)%nat.
Proof.
  induction s as [|a s IH]; [reflexivity|]. cbn [has_char count_char].
  destruct (Ascii.eqb a c); [reflexivity|]. exact IH.
Qed.

Lemma split_no_sep (c : ascii) (s : string) :
  has_char c s = false -> split c s = [s].
Proof.
  induction s as [|a s IH]; [reflexivity|]. cbn [has_char split].
  destruct (Ascii.eqb a c); [discriminate|]. cbn [orb]. intros H.
  now rewrite IH.
Qed.

Lemma split_app_sep (c : ascii) (a b : string) :
  has_char c a = false -> split c (a +:+ String c b) = a :: split c b.
Proof.
  induction a as [|x a IH]; cbn [has_char].
  - intros _. change (EmptyString +:+ String c b) with (String c b).
    cbn [split]. now rewrite Ascii.eqb_refl.
  - destruct (Ascii.eqb x c) eqn:Hx; [discriminate|]. cbn [orb]. intros H.
    change (String x a +:+ String c b) with (String x (a +:+ String c b)).
    cbn [split]. rewrite Hx, IH by exact H. reflexivity.
Qed.

Lemma has_char_append (c : ascii) (a b : string) :
  has_char c (a +:+ b) = has_char c a || has_char c b.
Proof.
  induction a as [|x a IH]; [reflexivity|].
  change (String x a +:+ b) with (String x (a +:+ b)). cbn [has_char].
  rewrite IH. now rewrite orb_assoc.
Qed.

Lemma append_length (a b : string) :
  String.length (a +:+ b) = (String.length a + String.length b)%nat.
Proof.
  induction a as [|x a IH]; [reflexivity|].
  change (String x a +:+ b) with (String x (a +:+ b)). cbn [String.length].
  now rewrite IH.
Qed.

Lemma substring_prefix (a b : string) :
  String.substring 0 (String.length a) (a +:+ b) = a.
Proof.
  induction a as [|x a IH]; [destruct b; reflexivity|].
  change (String x a +:+ b) with (String x (a +:+ b)).
  cbn [String.length String.substring]. now rewrite IH.
Qed.

Lemma strip_ends_enclosed (x y : ascii) (s : string) :
  strip_ends (String x (s +:+ String y EmptyString)) = s.
Proof.
  unfold strip_ends. cbn [String.length]. rewrite append_length.
  cbn [String.length].
  replace (S (String.length s + 1) - 2)%nat with (String.length s) by lia.
  cbn [String.substring]. apply substring_prefix.
Qed.

(** X12.  [schema.table] is read back into its two parts, a name without a
    dot belongs to the schema [public], and a table name that contains a
    bracket loses its first and last character (so [[orders]] is
    [orders]); the schema name is never stripped. *)
Theorem schema_and_table_parse (schema_name table_name : string) :
  has_char "." schema_name = false -> has_char "." table_name = false ->
  schema_and_table (schema_name +:+ String "." table_name)
  = Ok (schema_name,
        if has_char "[" table_name then strip_ends table_name else table_name)
  /\ schema_and_table table_name
     = Ok ("public",
           if has_char "[" table_name then strip_ends table_name else table_name)
  /\ forall s, strip_ends (String "[" (s +:+ "]")) = s.
Proof.
  intros Hs Ht. split; [|split].
  - unfold schema_and_table. rewrite has_char_append. cbn [has_char].
    rewrite Ascii.eqb_refl, orb_true_r.
    rewrite split_app_sep, split_no_sep by assumption. reflexivity.
  - unfold schema_and_table. rewrite Ht. reflexivity.
  - intros s. apply strip_ends_enclosed.
Qed.

Lemma schema_and_table_parse_witness :
  schema_and_table "dbo.[orders]" = Ok ("dbo", "orders")
  /\ schema_and_table "orders" = Ok ("public", "orders").
Proof.
  split.
  - exact (proj1 (schema_and_table_parse "dbo" "[orders]" eq_refl eq_refl)).
  - exact (proj1 (proj2 (schema_and_table_parse "dbo" "orders" eq_refl eq_refl))).
Defined.

Lemma schema_and_table_raises (src_table : string) (e : exn) :
  schema_and_table src_table = Raise e
  <-> e = ValueError /\ (2 <= count_char "." src_table)%nat.
Proof.
  unfold schema_and_table. rewrite has_char_count.
  pose proof (split_length "." src_table) as Hlen.
  destruct (Nat.eqb_spec (count_char "." src_table) 0) as [H0|H0]; cbn [negb rbind].
  - split; [|lia].
    destruct (has_char "[" src_table); discriminate.
  - destruct (split "." src_table) as [|a [|b [|c l]]]; cbn [length] in Hlen;
      cbn [rbind].
    + discriminate Hlen.
    + lia.
    + split; [|lia]. destruct (has_char "[" b); discriminate.
    + split; [|intros [-> _]; reflexivity].
      intros [= <-]. split; [reflexivity|lia].
Qed.

(** X13.  The only failure of the name parsing is a source table name with
    two or more dots: it raises [ValueError], and [clone_staging_table]
    then raises it before any call is made. *)
Theorem schema_and_table_raises_iff (src_table : string) (e : exn) :
  (schema_and_table src_table = Raise e
   <-> e = ValueError /\ (2 <= count_char "." src_table)%nat)
  /\ ((2 <= count_char "." src_table)%nat ->
      forall tgt_table select_fields incremental w t,
        clone_staging_table src_table tgt_table select_fields incremental w t
        = (t, Raise ValueError)).
Proof.
  split; [apply schema_and_table_raises|].
  intros Hdots tgt_table select_fields incremental w t.
  assert (H : schema_and_table src_table = Raise ValueError)
    by (apply schema_and_table_raises; auto).
  unfold clone_staging_table, get_source_table_schema, bind, lift. rewrite H.
  reflexivity.
Qed.

Lemma schema_and_table_raises_iff_witness :
  schema_and_table "db.dbo.orders" = Raise ValueError.
Proof.
  apply (proj2 (proj1 (schema_and_table_raises_iff "db.dbo.orders" ValueError))).
  split; [reflexivity|]. cbn. lia.
Defined.

(** ** Cleaned cells and the staging file *)

Lemma blanked_cases (c : ascii) :
  blanked c = true -> c = LF \/ c = CR \/ c = TAB \/ c = VT.
Proof.
  unfold blanked.
  destruct (Ascii.eqb_spec c LF); [auto|].
  destruct (Ascii.eqb_spec c CR); [auto|].
  destruct (Ascii.eqb_spec c TAB); [auto|].
  destruct (Ascii.eqb_spec c VT); [auto|discriminate].
Qed.

Lemma clean_char_not_blanked (a c : ascii) :
  blanked c = true -> Ascii.eqb (clean_char a) c = false.
Proof.
  intros Hc. unfold clean_char. destruct (blanked a) eqn:Ha.
  - apply blanked_cases in Hc. destruct Hc as [->|[->|[->| ->]]]; reflexivity.
  - apply Ascii.eqb_neq. intros ->. congruence.
Qed.

Lemma clean_no_blanked (c : ascii) (s : string) :
  blanked c = true -> has_char c (clean s) = false.
Proof.
  intros Hc. induction s as [|a s IH]; [reflexivity|].
  cbn [clean has_char]. now rewrite clean_char_not_blanked, IH.
Qed.

(** X14.  No cell written for a source value contains a newline, a
    carriage return, a tab or a vertical tab: with the tab as delimiter, a
    source value can neither split a field nor break a record. *)
Theorem normalize_no_separators (s : value) (c : ascii) :
  blanked c = true -> has_char c (str_cell (normalize s)) = false.
Proof.
  intros Hc.
  destruct s as [|b|n|s|text];
    try (unfold normalize; rewrite replace_chain; cbn [str_cell];
         now apply clean_no_blanked).
  apply blanked_cases in Hc.
  destruct b, Hc as [->|[->|[->| ->]]]; reflexivity.
Qed.

Lemma normalize_no_separators_witness :
  has_char TAB (str_cell (normalize (VStr ("a" +:+ String TAB "b")))) = false.
Proof. exact (normalize_no_separators _ TAB eq_refl). Defined.



(** ** Inversion of runs *)

Lemma bind_inv_ok {A B} (m : M A) (k : A -> M B) w t t' b :
  bind m k w t = (t', Ok b) ->
  exists t1 a, m w t = (t1, Ok a) /\ k a w t1 = (t', Ok b).
Proof.
  unfold bind. destruct (m w t) as [t1 [a|e]]; [eauto|discriminate].
Qed.


Lemma do_inv (c : call) w t t' r :
  do c w t = (t', r) ->
  t' = (t ++ [c])%list
  /\ ((r = Ok tt /\ w_raises w t c = None)
      \/ exists e, r = Raise e /\ w_raises w t c = Some e).
Proof.
  unfold do, ask. intros [= <- <-]. split; [reflexivity|].
  destruct (w_raises w t c); eauto.
Qed.

Lemma ask_inv {A} (c : call) (answer : world -> trace -> result A) w t t' r :
  ask c answer w t = (t', r) -> t' = (t ++ [c])%list /\ r = answer w t.
Proof. unfold ask. intros [= <- <-]. auto. Qed.

Lemma ret_inv {A} (a : A) w t t' r : ret a w t = (t', r) -> t' = t /\ r = Ok a.
Proof. unfold ret. intros [= <- <-]. auto. Qed.

(** ** The staged object *)

Section Staging.

Variable datetime : Type.
Variable strftime : datetime -> string -> string.
Variable self : session datetime.

(** X16.  When [source_to_s3] returns, the location it returns is
    [s3://bucket/key/output.tsv], the object uploaded under that bucket and
    key is the local staging file of the target table, and nothing follows
    the upload but the check for that file and its removal. *)
Theorem source_to_s3_returns_uploaded src_table tgt_table s3_bucket s3_key
    select_fields date_fields delimiter gzip source_system_cd w t t' path :
  source_to_s3 _ strftime self src_table tgt_table s3_bucket s3_key select_fields
               date_fields delimiter gzip source_system_cd w t = (t', Ok path) ->
  path = "s3://" +:+ staging_bucket self s3_bucket +:+ "/"
           +:+ staging_key self s3_key tgt_table +:+ "/output.tsv"
  /\ exists pre post,
       t' = (pre ++ s3_put_file_to_s3 (staging_bucket self s3_bucket)
                      (staging_key self s3_key tgt_table +:+ "/output.tsv")
                      (staging_file tgt_table) :: post)%list
       /\ (post = [os_path_exists (staging_file tgt_table)]
           \/ post = [os_path_exists (staging_file tgt_table);
                      os_remove (staging_file tgt_table)]).
Proof.
  unfold source_to_s3, staging_bucket, staging_key, staging_file. cbv zeta.
  intros H.
  repeat match type of H with
         | bind (do (s3_put_file_to_s3 _ _ _)) _ _ _ = _ => fail 1
         | bind _ _ _ _ = (_, Ok _) =>
             let Hm := fresh "Hm" in
             apply bind_inv_ok in H; destruct H as (? & ? & Hm & H); clear Hm
         end.
  match type of H with
  | _ _ ?tb = _ => set (t0 := tb) in *
  end.
  apply bind_inv_ok in H. destruct H as (t1 & [] & Hput & H).
  apply do_inv in Hput. destruct Hput as [-> _].
  apply bind_inv_ok in H. destruct H as (t2 & ex & Hex & H).
  apply ask_inv in Hex. destruct Hex as [-> _].
  apply bind_inv_ok in H. destruct H as (t3 & [] & Hrm & H).
  apply ret_inv in H. destruct H as [-> [= ->]].
  split; [now rewrite !append_assoc|].
  exists t0. destruct ex.
  - apply do_inv in Hrm. destruct Hrm as [-> _].
    eexists. split; [|right; reflexivity]. now rewrite <- !app_assoc.
  - apply ret_inv in Hrm. destruct Hrm as [-> _].
    eexists. split; [|left; reflexivity]. now rewrite <- !app_assoc.
Qed.

Lemma last_of_extension (t d dk : trace) (c : call) :
  (t ++ d = (t ++ dk) ++ [c])%list -> last d = Some c.
Proof.
  rewrite <- app_assoc. intros H. apply app_inv_head in H. subst d.
  apply last_snoc.
Qed.






End Staging.

Lemma source_to_s3_returns_uploaded_witness :
  snd (source_to_s3 string sample_strftime sample_session "dbo.orders" "stage.orders"
         None None None None (String TAB EmptyString) true None
         (sample_world [] true 1 1 [[VInt 1]]) [])
  = Ok "s3://stage-bucket/rsqoop/dev/stage-orders/output.tsv".
Proof.
  destruct (source_to_s3 string sample_strftime sample_session "dbo.orders"
              "stage.orders" None None None None (String TAB EmptyString) true None
              (sample_world [] true 1 1 [[VInt 1]]) []) as [t' [path|e]] eqn:Hrun.
  - destruct (source_to_s3_returns_uploaded string sample_strftime sample_session
                "dbo.orders" "stage.orders" None None None None
                (String TAB EmptyString) true None
                (sample_world [] true 1 1 [[VInt 1]]) [] t' path Hrun) as [-> _].
    reflexivity.
  - vm_compute in Hrun. discriminate Hrun.
Defined.


(** ** Substitution into templates *)





(** ** The load statement *)

(** X19.  The statement of a delimited load, after substitution.  A full
    refresh deletes every row of the target and copies the staged object
    into it; an incremental load copies into a temporary table shaped like
    the target, deletes the target rows that match a staged row on every
    key field, and inserts the staged rows. *)
Theorem load_sql_statement (datetime : Type) (self : session datetime)
    (tgt_table s3_path : string) (gzip manifest : bool) (maxerror : Z)
    (key_fields : option (list string)) (delimiter : string) (remove_quotes : bool) :
  load_sql _ self tgt_table s3_path false false gzip manifest maxerror key_fields
           delimiter remove_quotes
  = Ok ("delete from "
     +:+ tgt_table
     +:+ ";

                COPY "
     +:+ tgt_table
     +:+ " from '"
     +:+ s3_path
     +:+ "'
                CREDENTIALS 'aws_access_key_id="
     +:+ aws_access_key _ self
     +:+ ";aws_secret_access_key="
     +:+ aws_secret_key _ self
     +:+ "'
                delimiter '"
     +:+ delimiter
     +:+ "'
                dateformat 'YYYY-MM-DD'
                NULL AS 'None'
                truncatecolumns
                maxerror "
     +:+ str_int maxerror
     +:+ "
                "
     +:+ opt_str gzip manifest remove_quotes
     +:+ ";
")
  /\ load_sql _ self tgt_table s3_path true false gzip manifest maxerror key_fields
              delimiter remove_quotes
     = Ok ("
                drop table if exists tmp;
                create temporary table tmp (like "
     +:+ tgt_table
     +:+ ");

                COPY tmp from '"
     +:+ s3_path
     +:+ "'
                CREDENTIALS 'aws_access_key_id="
     +:+ aws_access_key _ self
     +:+ ";aws_secret_access_key="
     +:+ aws_secret_key _ self
     +:+ "'
                delimiter '"
     +:+ delimiter
     +:+ "'
                dateformat 'YYYY-MM-DD'
                NULL AS 'None'
                truncatecolumns
                maxerror "
     +:+ str_int maxerror
     +:+ " "
     +:+ opt_str gzip manifest remove_quotes
     +:+ ";

                delete
                from "
     +:+ tgt_table
     +:+ "
                where exists
                  ( select 1
                    from tmp
                    where "
     +:+ upd_where tgt_table key_fields
     +:+ ");
                insert into "
     +:+ tgt_table
     +:+ "
                select * from tmp;
").
Proof.
  unfold load_sql, py_format. cbn [negb]. split.
  - erewrite format_ext by (intros; apply subs_assoc).
    lazy -[str_int String.append upd_where opt_str aws_access_key aws_secret_key].
    reflexivity.
  - erewrite format_ext by (intros; apply subs_assoc).
    lazy -[str_int String.append upd_where opt_str aws_access_key aws_secret_key].
    reflexivity.
Qed.

Lemma bind_do {B} (c : call) (k : unit -> M B) w t :
  bind (do c) k w t
  = match w_raises w t c with
    | None => k tt w (t ++ [c])%list
    | Some e => ((t ++ [c])%list, Raise e)
    end.
Proof. unfold bind, do, ask. destruct (w_raises w t c); reflexivity. Qed.

Lemma bind_assoc {A B C} (m : M A) (k : A -> M B) (h : B -> M C) w t :
  bind (bind m k) h w t = bind m (fun a => bind (k a) h) w t.
Proof. unfold bind. destruct (m w t) as [t1 [a|e]]; reflexivity. Qed.

Lemma do_run (c : call) w t :
  do c w t
  = ((t ++ [c])%list,
     match w_raises w t c with None => Ok tt | Some e => Raise e end).
Proof. reflexivity. Qed.

(** X20.  Once the parameters pass the check, the calls of
    [s3_to_redshift] are a prefix of: connect, open a batch, execute the
    load statement, execute the grants, commit, commit.  It returns only
    after all six, and the grants are sent only if the load statement
    returned. *)
Theorem s3_to_redshift_calls (datetime : Type) (self : session datetime)
    (tgt_table s3_path : string) (incremental csv_fmt gzip manifest : bool)
    (maxerror : Z) (key_fields : option (list string)) (delimiter : string)
    (remove_quotes : bool) (sql : string) (w : world) (t : trace) :
  incremental && negb (truthy key_fields) = false ->
  load_sql _ self tgt_table s3_path incremental csv_fmt gzip manifest maxerror
           key_fields delimiter remove_quotes = Ok sql ->
  exists k,
    fst (s3_to_redshift _ self tgt_table s3_path incremental csv_fmt gzip manifest
           maxerror key_fields delimiter remove_quotes w t)
    = (t ++ take k (load_calls tgt_table sql))%list
    /\ (snd (s3_to_redshift _ self tgt_table s3_path incremental csv_fmt gzip
               manifest maxerror key_fields delimiter remove_quotes w t) = Ok tt ->
        k = 6%nat)
    /\ ((3 < k)%nat ->
        w_raises w (t ++ [pg_conn; pg_batchOpen])%list (pg_exec_sql sql) = None).
Proof.
  intros Hchk Hsql. rewrite (s3_to_redshift_run _ _ _ _ _ _ _ _ _ _ _ _ sql) by assumption.
  unfold grant_std_access, load_calls. fold (grant_sql tgt_table).
  rewrite bind_do.
  destruct (w_raises w t pg_conn) as [e1|].
  { exists 1%nat. cbn [fst snd take]. repeat split; try discriminate; lia. }
  rewrite bind_do.
  destruct (w_raises w (t ++ [pg_conn])%list pg_batchOpen) as [e2|].
  { exists 2%nat. cbn [fst snd take]. rewrite <- app_assoc.
    repeat split; try discriminate; lia. }
  rewrite bind_do. rewrite <- (app_assoc t [pg_conn] [pg_batchOpen]). cbn [app].
  destruct (w_raises w (t ++ [pg_conn; pg_batchOpen])%list (pg_exec_sql sql))
    as [e3|] eqn:Hexec.
  { exists 3%nat. cbn [fst snd take]. rewrite <- app_assoc.
    split; [reflexivity|]. split; [discriminate|]. lia. }
  rewrite bind_assoc, bind_do.
  destruct (w_raises w _ (pg_exec_sql (grant_sql tgt_table))) as [e4|].
  { exists 4%nat. cbn [fst snd take]. rewrite <- !app_assoc.
    split; [reflexivity|]. split; [discriminate|]. reflexivity. }
  rewrite bind_do.
  destruct (w_raises w _ pg_batchCommit) as [e5|].
  { exists 5%nat. cbn [fst snd take]. rewrite <- !app_assoc.
    split; [reflexivity|]. split; [discriminate|]. reflexivity. }
  rewrite do_run. exists 6%nat. cbn [fst snd take]. rewrite <- !app_assoc.
  split; [reflexivity|]. split; reflexivity.
Qed.

Lemma s3_to_redshift_calls_witness :
  exists k sql,
    fst (s3_to_redshift string sample_session "stage.orders" "s3://b/k/output.tsv"
           false false true false 0 None (String TAB EmptyString) false
           (sample_world [] true 0 0 []) [])
    = take k (load_calls "stage.orders" sql)
    /\ k = 6%nat.
Proof.
  destruct (load_sql string sample_session "stage.orders" "s3://b/k/output.tsv"
              false false true false 0 None (String TAB EmptyString) false)
    as [sql|e] eqn:Hsql; [|vm_compute in Hsql; discriminate Hsql].
  destruct (s3_to_redshift_calls string sample_session "stage.orders"
              "s3://b/k/output.tsv" false false true false 0 None
              (String TAB EmptyString) false sql (sample_world [] true 0 0 []) []
              eq_refl Hsql) as (k & Htr & Hok & _).
  exists k, sql. split; [exact Htr|]. apply Hok.
  rewrite (s3_to_redshift_run _ _ _ _ _ _ _ _ _ _ _ _ sql) by (reflexivity || exact Hsql).
  reflexivity.
Defined.

(** X21.  A failure of the load statement is fatal and leaves the target
    ungranted: when connecting and opening the batch return and the load
    statement raises, [s3_to_redshift] raises the same exception after
    these three calls; no grant is sent and nothing is committed. *)
Theorem s3_to_redshift_load_failure (datetime : Type) (self : session datetime)
    (tgt_table s3_path : string) (incremental csv_fmt gzip manifest : bool)
    (maxerror : Z) (key_fields : option (list string)) (delimiter : string)
    (remove_quotes : bool) (sql : string) (e : exn) (w : world) (t : trace) :
  incremental && negb (truthy key_fields) = false ->
  load_sql _ self tgt_table s3_path incremental csv_fmt gzip manifest maxerror
           key_fields delimiter remove_quotes = Ok sql ->
  w_raises w t pg_conn = None ->
  w_raises w (t ++ [pg_conn])%list pg_batchOpen = None ->
  w_raises w (t ++ [pg_conn; pg_batchOpen])%list (pg_exec_sql sql) = Some e ->
  s3_to_redshift _ self tgt_table s3_path incremental csv_fmt gzip manifest maxerror
                 key_fields delimiter remove_quotes w t
  = ((t ++ [pg_conn; pg_batchOpen; pg_exec_sql sql])%list, Raise e).
Proof.
  intros Hchk Hsql Hconn Hopen Hexec.
  rewrite (s3_to_redshift_run _ _ _ _ _ _ _ _ _ _ _ _ sql) by assumption.
  rewrite bind_do, Hconn, bind_do, Hopen, bind_do.
  rewrite <- (app_assoc t [pg_conn] [pg_batchOpen]). cbn [app]. rewrite Hexec.
  now rewrite <- app_assoc.
Qed.

Lemma s3_to_redshift_load_failure_witness :
  snd (s3_to_redshift string sample_session "stage.orders" "s3://b/k/output.tsv"
         false false true false 0 None (String TAB EmptyString) false
         (exec_failing_world [] true) [])
  = Raise (RemoteError "exec_sql").
Proof.
  destruct (load_sql string sample_session "stage.orders" "s3://b/k/output.tsv"
              false false true false 0 None (String TAB EmptyString) false)
    as [sql|e] eqn:Hsql; [|vm_compute in Hsql; discriminate Hsql].
  exact (f_equal snd
           (s3_to_redshift_load_failure string sample_session "stage.orders"
              "s3://b/k/output.tsv" false false true false 0 None
              (String TAB EmptyString) false sql (RemoteError "exec_sql")
              (exec_failing_world [] true) [] eq_refl Hsql eq_refl eq_refl eq_refl)).
Defined.

(** ** Surplus rows in the target *)

Lemma binary_round_aux_nonpos (mx ex : Z) (lx : location) :
  nonpos_float (binary_round_aux prec emax true mx ex lx) = true.
Proof.
  unfold binary_round_aux.
  destruct (shr_fexp prec emax mx ex lx) as [mrs' e'].
  destruct (shr_fexp prec emax _ e' loc_Exact) as [mrs'' e''].
  destruct (shr_m mrs''); [reflexivity| |reflexivity].
  destruct (e'' <=? emax - prec); reflexivity.
Qed.

Lemma SFdiv_nonpos (x : float) (m : positive) (e : Z) :
  nonpos_float x = true ->
  nonpos_float (SFdiv prec emax x (S754_finite false m e)) = true.
Proof.
  destruct x as [s|[]| |[] mx ex]; try discriminate; intros _; cbn [SFdiv xorb];
    try reflexivity.
  destruct (SFdiv_core_binary prec emax (Zpos mx) ex (Zpos m) e) as [[mz ez] lz].
  apply binary_round_aux_nonpos.
Qed.

Lemma float_gt_nonpos_nonneg (x thr : float) :
  nonpos_float x = true -> nonneg_float thr = true -> float_gt x thr = false.
Proof.
  unfold float_gt, SFltb.
  destruct x as [sx|[]| |[] mx ex]; try discriminate;
    destruct thr as [st|[]| |[] mt et]; try discriminate; reflexivity.
Qed.

Lemma relative_diff_nonpos (src_cnt tgt_cnt : Z) :
  0 <= src_cnt <= tgt_cnt -> tgt_cnt < 2 ^ 63 ->
  nonpos_float (relative_diff src_cnt tgt_cnt) = true.
Proof.
  intros Hle Hb. unfold relative_diff.
  assert (H63 : 2 ^ 63 < 2 ^ 1000) by (apply Z.pow_lt_mono_r; lia).
  assert (Hden : exists m e,
             nearest_float (if src_cnt =? 0 then 1 else src_cnt)
             = S754_finite false m e).
  { destruct (float_of_int_finite (if src_cnt =? 0 then 1 else src_cnt))
      as (m & e & H).
    - destruct (Z.eqb_spec src_cnt 0); lia.
    - destruct (Z.eqb_spec src_cnt 0); lia.
    - exists m, e. unfold nearest_float. rewrite H. f_equal.
      destruct (Z.eqb_spec src_cnt 0); apply Z.ltb_ge; lia. }
  destruct Hden as (m & e & ->). apply SFdiv_nonpos.
  destruct (Z.eq_dec (src_cnt - tgt_cnt) 0) as [->|Hne]; [reflexivity|].
  destruct (float_of_int_finite (src_cnt - tgt_cnt) Hne ltac:(lia)) as (m' & e' & H).
  unfold nearest_float. rewrite H.
  replace (src_cnt - tgt_cnt <? 0) with true by (symmetry; apply Z.ltb_lt; lia).
  reflexivity.
Qed.

(** X22.  Rows in excess in the target are never reported: when the target
    count is at least the source count, the count check passes for every
    threshold that is not negative, whatever the excess. *)
Theorem check_tgt_count_surplus_passes (src_cnt tgt_cnt : Z) (tgt_table : string)
    (pct_threshold : float) (w : world) (t : trace) :
  0 <= src_cnt <= tgt_cnt -> tgt_cnt < 2 ^ 63 ->
  nonneg_float pct_threshold = true ->
  w_tgt_cnt w t ("select count(1) from " +:+ tgt_table) = Ok tgt_cnt ->
  snd (check_tgt_count src_cnt tgt_table pct_threshold w t)
  = Ok (src_cnt - tgt_cnt, relative_diff src_cnt tgt_cnt).
Proof.
  intros Hle Hb Hthr Hcnt.
  rewrite (check_tgt_count_run _ _ _ tgt_cnt) by exact Hcnt. cbn [snd].
  rewrite count_check_relative_diff by lia.
  now rewrite float_gt_nonpos_nonneg by (auto using relative_diff_nonpos).
Qed.

Lemma check_tgt_count_surplus_passes_witness :
  snd (check_tgt_count 10 "stage.orders" pct_threshold_default
         (sample_world [] true 10 1000000 []) [])
  = Ok (-999990, relative_diff 10 1000000).
Proof.
  exact (check_tgt_count_surplus_passes 10 1000000 "stage.orders"
           pct_threshold_default (sample_world [] true 10 1000000 []) []
           ltac:(lia) ltac:(cbn; lia) eq_refl eq_refl).
Defined.

(** ** The pipeline, step by step *)

Section PipelineSteps.

Variable datetime : Type.
Variable strftime : datetime -> string -> string.
Variable self : session datetime.

Lemma s3_to_redshift_ok_inv tgt_table s3_path incremental csv_fmt gzip manifest
    maxerror key_fields delimiter remove_quotes w t t' u :
  s3_to_redshift _ self tgt_table s3_path incremental csv_fmt gzip manifest maxerror
                 key_fields delimiter remove_quotes w t = (t', Ok u) ->
  exists sql,
    load_sql _ self tgt_table s3_path incremental csv_fmt gzip manifest maxerror
             key_fields delimiter remove_quotes = Ok sql
    /\ t' = (t ++ load_calls tgt_table sql)%list.
Proof.
  destruct (incremental && negb (truthy key_fields)) eqn:Hchk.
  { unfold s3_to_redshift. rewrite Hchk. discriminate. }
  destruct (load_sql _ self tgt_table s3_path incremental csv_fmt gzip manifest
              maxerror key_fields delimiter remove_quotes) as [sql|e] eqn:Hsql.
  2:{ unfold s3_to_redshift. rewrite Hchk, Hsql. discriminate. }
  rewrite (s3_to_redshift_run _ _ _ _ _ _ _ _ _ _ _ _ sql) by assumption.
  unfold grant_std_access, load_calls. fold (grant_sql tgt_table).
  rewrite bind_do. destruct (w_raises w t pg_conn); [discriminate|].
  rewrite bind_do. destruct (w_raises w _ pg_batchOpen); [discriminate|].
  rewrite bind_do. destruct (w_raises w _ (pg_exec_sql sql)); [discriminate|].
  rewrite bind_assoc, bind_do.
  destruct (w_raises w _ (pg_exec_sql (grant_sql tgt_table))); [discriminate|].
  rewrite bind_do. destruct (w_raises w _ pg_batchCommit); [discriminate|].
  rewrite do_run. destruct (w_raises w _ pg_batchCommit); [discriminate|].
  intros [= <-]. exists sql. split; [reflexivity|]. now rewrite <- !app_assoc.
Qed.

Lemma check_tgt_count_inv src_cnt tgt_table thr w t t' r :
  check_tgt_count src_cnt tgt_table thr w t = (t', r) ->
  t' = (t ++ [pg_fetch_sql_all ("select count(1) from " +:+ tgt_table)])%list.
Proof.
  unfold check_tgt_count, bind, ask, lift.
  destruct (w_tgt_cnt w t _); now intros [= <- _].
Qed.

(** X23.  A failure of [clone_staging_table] ends the run of the pipeline
    with that exception and without any further call; when it returns,
    with or without names, the next call is the source count query, before
    anything is extracted. *)
Theorem stage_to_redshift_after_clone src_table tgt_table incremental gzip
    date_fields delimiter remove_quotes key_fields select_fields source_system_cd
    w t t1 :
  (forall e,
      clone_staging_table src_table tgt_table select_fields incremental w t
      = (t1, Raise e) ->
      stage_to_redshift _ strftime self src_table tgt_table incremental gzip
        date_fields delimiter remove_quotes key_fields select_fields
        source_system_cd w t = (t1, Raise e))
  /\ (forall names,
        clone_staging_table src_table tgt_table select_fields incremental w t
        = (t1, Ok names) ->
        exists t',
          fst (stage_to_redshift _ strftime self src_table tgt_table incremental
                 gzip date_fields delimiter remove_quotes key_fields select_fields
                 source_system_cd w t)
          = (t1 ++ sql_fetch_sql_all ("select count(1) from " +:+ src_table) :: t')%list).
Proof.
  split.
  - intros e Hclone. unfold stage_to_redshift. unfold bind at 1. now rewrite Hclone.
  - intros [src_name tgt_name] Hclone.
    unfold stage_to_redshift. unfold bind at 1. rewrite Hclone.
    assert (Hskip : forall B (k : unit -> M B),
               bind (if not_name src_name then ret tt else ret tt) k w t1 = k tt w t1).
    { intros B k. destruct (not_name src_name); reflexivity. }
    rewrite Hskip. unfold bind at 1. unfold get_src_count at 1. unfold ask at 1.
    destruct (w_src_cnt w t1 _) as [src_cnt|e].
    + match goal with
      | |- context [?k w (t1 ++ [?c])%list] => assert (Hext : extends k)
      end.
      { pose proof (extends_source_to_s3 datetime strftime self).
        pose proof (extends_s3_to_redshift datetime self).
        repeat extends_step. }
      destruct (Hext w (t1 ++ [sql_fetch_sql_all
                                 ("select count(1) from " +:+ src_table)])%list)
        as [t' Ht'].
      exists t'. rewrite Ht'. now rewrite <- app_assoc.
    + exists []. reflexivity.
Qed.

(** X24.  A run of the pipeline that returns ends with the six calls of the
    load (connect, open a batch, load statement, grants, commit, commit)
    followed by the target count query: the target is counted after the
    load is committed, and nothing follows the count check. *)
Theorem stage_to_redshift_returns src_table tgt_table incremental gzip
    date_fields delimiter remove_quotes key_fields select_fields source_system_cd
    w t t' :
  stage_to_redshift _ strftime self src_table tgt_table incremental gzip
    date_fields delimiter remove_quotes key_fields select_fields source_system_cd
    w t = (t', Ok tt) ->
  exists pre s3_path sql,
    load_sql _ self tgt_table s3_path incremental false gzip false 0 key_fields
             delimiter remove_quotes = Ok sql
    /\ t' = (pre ++ load_calls tgt_table sql
               ++ [pg_fetch_sql_all ("select count(1) from " +:+ tgt_table)])%list.
Proof.
  unfold stage_to_redshift. intros H.
  apply bind_inv_ok in H. destruct H as (t1 & [src_name tgt_name] & _ & H).
  apply bind_inv_ok in H. destruct H as (t2 & [] & _ & H).
  apply bind_inv_ok in H. destruct H as (t3 & src_cnt & _ & H).
  apply bind_inv_ok in H. destruct H as (t4 & s3_path & _ & H).
  apply bind_inv_ok in H. destruct H as (t5 & [] & Hload & H).
  apply bind_inv_ok in H. destruct H as (t6 & res & Hcheck & H).
  apply ret_inv in H. destruct H as [-> _].
  apply s3_to_redshift_ok_inv in Hload. destruct Hload as (sql & Hsql & ->).
  apply check_tgt_count_inv in Hcheck. subst t6.
  exists t4, s3_path, sql. split; [exact Hsql|]. now rewrite <- app_assoc.
Qed.

End PipelineSteps.

Lemma stage_to_redshift_after_clone_witness :
  stage_to_redshift string sample_strftime sample_session "a.b.c" "stage.orders"
    false true None (String TAB EmptyString) false None None None
    (sample_world [] true 0 0 []) []
  = ([], Raise ValueError).
Proof.
  exact (proj1 (stage_to_redshift_after_clone string sample_strftime sample_session
                  "a.b.c" "stage.orders" false true None (String TAB EmptyString)
                  false None None None (sample_world [] true 0 0 []) [] [])
           ValueError eq_refl).
Defined.

Lemma stage_to_redshift_returns_witness :
  exists pre sql,
    fst (sample_stage (sample_world [Field "id" "int" None (Some 10) (Some 0)]
                         true 1 1 [[VInt 1]]) false None)
    = (pre ++ load_calls "stage.orders" sql
         ++ [pg_fetch_sql_all "select count(1) from stage.orders"])%list.
Proof.
  destruct (sample_stage (sample_world [Field "id" "int" None (Some 10) (Some 0)]
                            true 1 1 [[VInt 1]]) false None) as [t' r] eqn:Hrun.
  assert (Hr : r = Ok tt).
  { vm_compute in Hrun. now injection Hrun as _ <-. }
  subst r.
  destruct (stage_to_redshift_returns string sample_strftime sample_session
              "dbo.orders" "stage.orders" false true None (String TAB EmptyString)
              false None None None _ [] t' Hrun) as (pre & s3_path & sql & _ & ->).
  exists pre, sql. reflexivity.
Defined.

(** ** The loop over the table pairs *)

Section MainLoop.

Variable datetime : Type.
Variable strftime : datetime -> string -> string.
Variable r : session datetime.
Variable a : args.

Lemma main_loop_split (n1 n2 i : nat) w t :
  main_loop strftime r a (n1 + n2) i w t
  = bind (main_loop strftime r a n1 i)
         (fun _ => main_loop strftime r a n2 (i + n1)) w t.
Proof.
  revert i t. induction n1 as [|n1 IH]; intros i t.
  - cbn [Nat.add main_loop]. unfold bind at 1. cbn [ret].
    now rewrite Nat.add_0_r.
  - cbn [Nat.add main_loop]. unfold bind.
    destruct (lift (py_index (arg_source_tables a) i) w t) as [t1 [s|e]];
      [|reflexivity].
    destruct (lift (py_index (arg_target_tables a) i) w t1) as [t2 [tg|e]];
      [|reflexivity].
    destruct (stage_to_redshift _ _ _ _ _ _ _ _ _ _ _ _ _ w t2) as [t3 [[]|e]];
      [|reflexivity].
    specialize (IH (S i) t3). unfold bind in IH. rewrite IH.
    now replace (S i + n1)%nat with (i + S n1)%nat by lia.
Qed.

(** X25.  The batch stops at the first table that fails: when the first
    [k] pairs have been staged and staging the next pair raises, the loop
    raises that exception and makes no call for any later pair. *)
Theorem main_stops_at_first_failure (k : nat) (source_table target_table : string)
    (e : exn) w t t1 t2 :
  main_loop strftime r a k 0 w t = (t1, Ok tt) ->
  arg_source_tables a !! k = Some source_table ->
  arg_target_tables a !! k = Some target_table ->
  stage_to_redshift _ strftime r source_table target_table
    (arg_incremental a) (arg_gzip a) (arg_date_fields a)
    (String TAB EmptyString) (arg_remove_quotes a) (arg_key_fields a)
    (option_map (map SelStr) (arg_select_fields a)) (arg_source_system a) w t1
  = (t2, Raise e) ->
  main strftime r a w t = (t2, Raise e).
Proof.
  intros Hfirst Hs Ht Hstage. unfold main.
  assert (Hlen : (k < length (arg_source_tables a))%nat)
    by (eapply lookup_lt_Some; eauto).
  replace (length (arg_source_tables a))
    with (k + S (length (arg_source_tables a) - S k))%nat by lia.
  rewrite main_loop_split. unfold bind at 1. rewrite Hfirst.
  cbn [Nat.add main_loop]. unfold bind, lift, py_index. rewrite Hs, Ht, Hstage.
  reflexivity.
Qed.

(** X26.  The table lists are walked by index: with fewer target tables
    than source tables, the pairs that exist are staged first and the loop
    then raises [IndexError] without another call. *)
Theorem main_missing_target w t t1 :
  (length (arg_target_tables a) < length (arg_source_tables a))%nat ->
  main_loop strftime r a (length (arg_target_tables a)) 0 w t = (t1, Ok tt) ->
  main strftime r a w t = (t1, Raise IndexError).
Proof.
  intros Hlen Hfirst. unfold main.
  replace (length (arg_source_tables a))
    with (length (arg_target_tables a)
          + S (length (arg_source_tables a) - S (length (arg_target_tables a))))%nat
    by lia.
  rewrite main_loop_split. unfold bind at 1. rewrite Hfirst.
  cbn [Nat.add main_loop]. unfold bind, lift, py_index.
  destruct (arg_source_tables a !! length (arg_target_tables a)) as [s|] eqn:Hs.
  - rewrite (proj2 (lookup_ge_None (arg_target_tables a) _)) by lia. reflexivity.
  - apply lookup_ge_None in Hs. lia.
Qed.

End MainLoop.

Lemma main_stops_at_first_failure_witness :
  snd (main sample_strftime sample_session
         (sample_args ["a.b.c"; "dbo.orders"] ["stage.x"; "stage.orders"])
         (sample_world [] true 0 0 []) [])
  = Raise ValueError.
Proof.
  exact (f_equal snd
           (main_stops_at_first_failure string sample_strftime sample_session
              (sample_args ["a.b.c"; "dbo.orders"] ["stage.x"; "stage.orders"])
              0 "a.b.c" "stage.x" ValueError (sample_world [] true 0 0 []) [] [] []
              eq_refl eq_refl eq_refl eq_refl)).
Defined.

Lemma main_missing_target_witness :
  snd (main sample_strftime sample_session (sample_args ["dbo.orders"] [])
         (sample_world [] true 0 0 []) [])
  = Raise IndexError.
Proof.
  exact (f_equal snd
           (main_missing_target string sample_strftime sample_session
              (sample_args ["dbo.orders"] []) (sample_world [] true 0 0 []) [] []
              ltac:(cbn; lia) eq_refl)).
Defined.
